(** * betslip: NFL/CFB live-odds proxy (main.py)

    A shallow embedding of [main.py] and the properties of its
    normalisation pipeline: the week window, the bookmaker selector, the
    event normaliser, the TTL cache and the request handlers.

    Python values delivered by the provider's JSON are modelled by the
    inductive type [pyval]; a raising Python computation is a value of
    [result], and the process-wide cache and the clock are threaded
    explicitly through the handlers. *)

From Stdlib Require Import ZArith Lia Bool List String Ascii.
From Stdlib Require Import Sorting.Sorted Sorting.Permutation.
From Stdlib Require Import Structures.OrderedTypeEx.
From Stdlib Require Import Floats.SpecFloat.
From stdpp Require Import gmap strings.

Import ListNotations.
Local Open Scope string_scope.
Local Open Scope list_scope.
Local Open Scope Z_scope.

(** ** Exceptions and raising computations *)

(** The exceptions the code under study can raise.  [HTTPException]
    carries the status code chosen by [fetch_odds]; [TransportError]
    stands for anything [httpx] raises on a network failure. *)
Inductive exn : Type :=
| TypeError
| ValueError
| AttributeError
| KeyError
| IndexError
| OverflowError
| ValidationError
| HTTPException (status : Z)
| TransportError.

Inductive result (A : Type) : Type :=
| Ok (a : A)
| Raise (e : exn).
Arguments Ok {A} a.
Arguments Raise {A} e.

Definition bind {A B : Type} (c : result A) (k : A -> result B) : result B :=
  match c with
  | Ok a => k a
  | Raise e => Raise e
  end.

Notation "'let*' x ':=' c 'in' k" := (bind c (fun x => k))
  (at level 10, x name, c at level 100, k at level 200,
   format "'[v' 'let*'  x  :=  c  'in' '/' k ']'").

Definition raises {A : Type} (c : result A) : Prop := exists e, c = Raise e.

Definition of_option {A : Type} (e : exn) (o : option A) : result A :=
  match o with
  | Some a => Ok a
  | None => Raise e
  end.

(** ** Python floats

    A Python [float] is an IEEE-754 binary64 value; [spec_float] is the
    Standard Library's specification of those.  Ordering is decided on
    the exact dyadic values, so that it is right for every mantissa and
    exponent pair, normalised or not. *)

Definition prec : Z := 53.
Definition emax : Z := 1024.

Definition float_of_Z (z : Z) : spec_float := binary_normalize prec emax z 0 false.

(** [m * 2^e] scaled to the common exponent [e0 <= e]. *)
Definition scaled (s : bool) (m : positive) (e e0 : Z) : Z :=
  cond_Zopp s (Z.pos m * 2 ^ (e - e0)).

Definition float_compare (x y : spec_float) : option comparison :=
  match x, y with
  | S754_nan, _ | _, S754_nan => None
  | S754_infinity s1, S754_infinity s2 =>
      Some (match s1, s2 with
            | true, false => Lt
            | false, true => Gt
            | _, _ => Eq
            end)
  | S754_infinity s, _ => Some (if s then Lt else Gt)
  | _, S754_infinity s => Some (if s then Gt else Lt)
  | S754_zero _, S754_zero _ => Some Eq
  | S754_finite s _ _, S754_zero _ => Some (if s then Lt else Gt)
  | S754_zero _, S754_finite s _ _ => Some (if s then Gt else Lt)
  | S754_finite s1 m1 e1, S754_finite s2 m2 e2 =>
      let e0 := Z.min e1 e2 in
      Some (scaled s1 m1 e1 e0 ?= scaled s2 m2 e2 e0)
  end.

(** [x < y] and [x == y] on floats; both are false as soon as one side
    is a NaN. *)
Definition float_lt (x y : spec_float) : bool :=
  match float_compare x y with
  | Some Lt => true
  | _ => false
  end.

Definition float_eq (x y : spec_float) : bool :=
  match float_compare x y with
  | Some Eq => true
  | _ => false
  end.

(** [abs(x)] *)
Definition float_abs (x : spec_float) : spec_float := SFabs x.

(** [int(x)] for a float [x]: truncation towards zero. *)
Definition int_of_float (x : spec_float) : result Z :=
  match x with
  | S754_zero _ => Ok 0
  | S754_infinity _ => Raise OverflowError
  | S754_nan => Raise ValueError
  | S754_finite s m e =>
      Ok (cond_Zopp s (if 0 <=? e then Z.pos m * 2 ^ e else Z.pos m / 2 ^ (- e)))
  end.

(** [float(n)] for an int [n]: round to nearest even, [OverflowError]
    when the result does not fit. *)
Definition float_of_int (n : Z) : result spec_float :=
  match float_of_Z n with
  | S754_infinity _ => Raise OverflowError
  | f => Ok f
  end.

(** Does the float [x] equal the integer [n]?  (Python compares an int
    with a float exactly.) *)
Definition float_eq_int (x : spec_float) (n : Z) : bool :=
  match x with
  | S754_zero _ => n =? 0
  | S754_finite s m e =>
      if 0 <=? e then n =? cond_Zopp s (Z.pos m * 2 ^ e)
      else cond_Zopp s (Z.pos m) =? n * 2 ^ (- e)
  | _ => false
  end.

(** ** Python values

    What [r.json()] can deliver: [None], booleans, ints, floats, strings,
    lists and dicts with string keys (in insertion order). *)
#[warnings="-register-all"]
Inductive pyval : Type :=
| PNone
| PBool (b : bool)
| PInt (n : Z)
| PFloat (x : spec_float)
| PStr (s : string)
| PList (l : list pyval)
| PDict (d : list (string * pyval)).

(** Truth value of an object, as [if x:] and [not x] take it. *)
Definition truthy (v : pyval) : bool :=
  match v with
  | PNone => false
  | PBool b => b
  | PInt n => negb (n =? 0)
  | PFloat x => negb (float_eq x (S754_zero false))
  | PStr s => negb (String.eqb s "")
  | PList l => match l with [] => false | _ => true end
  | PDict d => match d with [] => false | _ => true end
  end.

Fixpoint assoc {A : Type} (k : string) (d : list (string * A)) : option A :=
  match d with
  | [] => None
  | (k', v) :: r => if String.eqb k k' then Some v else assoc k r
  end.

Definition has_key {A : Type} (k : string) (d : list (string * A)) : bool :=
  match assoc k d with
  | Some _ => true
  | None => false
  end.

(** Numbers compare across [bool], [int] and [float]. *)
Inductive number : Type :=
| NumInt (n : Z)
| NumFloat (x : spec_float).

Definition as_number (v : pyval) : option number :=
  match v with
  | PBool b => Some (NumInt (if b then 1 else 0))
  | PInt n => Some (NumInt n)
  | PFloat x => Some (NumFloat x)
  | _ => None
  end.

Definition number_eq (a b : number) : bool :=
  match a, b with
  | NumInt m, NumInt n => m =? n
  | NumInt m, NumFloat y => float_eq_int y m
  | NumFloat x, NumInt n => float_eq_int x n
  | NumFloat x, NumFloat y => float_eq x y
  end.

(** [a == b].  Lists compare element by element, dicts as maps, and a
    NaN is different from everything (two values read from different
    places of the JSON document are never the same object). *)
Fixpoint py_eq (a b : pyval) {struct a} : bool :=
  match a, b with
  | PNone, PNone => true
  | PStr s, PStr t => String.eqb s t
  | PList l, PList l' =>
      (fix all2 (l l' : list pyval) {struct l} : bool :=
         match l, l' with
         | [], [] => true
         | x :: xs, y :: ys => py_eq x y && all2 xs ys
         | _, _ => false
         end) l l'
  | PDict d, PDict d' =>
      (fix sub (d : list (string * pyval)) {struct d} : bool :=
         match d with
         | [] => true
         | (k, v) :: r =>
             match assoc k d' with
             | Some v' => py_eq v v'
             | None => false
             end && sub r
         end) d
      && forallb (fun kv => has_key (fst kv) d) d'
  | _, _ =>
      match as_number a, as_number b with
      | Some x, Some y => number_eq x y
      | _, _ => false
      end
  end.

(** Only lists and dicts are unhashable among JSON values. *)
Definition hashable (v : pyval) : bool :=
  match v with
  | PList _ | PDict _ => false
  | _ => true
  end.

(** [v.get(k, default)]: only dicts have a [get] method. *)
Definition py_get (v : pyval) (k : string) (default : pyval) : result pyval :=
  match v with
  | PDict d => Ok (match assoc k d with Some x => x | None => default end)
  | _ => Raise AttributeError
  end.

(** The elements a [for] loop or a comprehension sees: the items of a
    list, the keys of a dict, the characters of a string (one string per
    byte here; the code only ever calls [.get] on them, which no string
    has). *)
Definition py_iter (v : pyval) : result (list pyval) :=
  match v with
  | PList l => Ok l
  | PDict d => Ok (map (fun kv => PStr (fst kv)) d)
  | PStr s => Ok (map (fun c => PStr (String c EmptyString)) (list_ascii_of_string s))
  | _ => Raise TypeError
  end.

(** [v[0]] *)
Definition py_first (v : pyval) : result pyval :=
  match v with
  | PList l => of_option IndexError (head l)
  | PStr s => of_option IndexError (head (map (fun c => PStr (String c EmptyString)) (list_ascii_of_string s)))
  | PDict d => Raise KeyError
  | _ => Raise TypeError
  end.

(** *** Dicts built by the code

    [{f(x): x for x in xs}] keys its entries by arbitrary hashable
    values; a later entry with an equal key replaces the value of the
    earlier one. *)
Definition pydict : Type := list (pyval * pyval).

Fixpoint dict_set (d : pydict) (k v : pyval) : pydict :=
  match d with
  | [] => [(k, v)]
  | (k', v') :: r => if py_eq k' k then (k', v) :: r else (k', v') :: dict_set r k v
  end.

Fixpoint dict_lookup (d : pydict) (k : pyval) : option pyval :=
  match d with
  | [] => None
  | (k', v') :: r => if py_eq k' k then Some v' else dict_lookup r k
  end.

(** [d.get(k)] *)
Definition dict_get (d : pydict) (k : pyval) : result pyval :=
  if hashable k
  then Ok (match dict_lookup d k with Some v => v | None => PNone end)
  else Raise TypeError.

(** [{x.get(field): x for x in items}], entry by entry on top of [acc]. *)
Fixpoint dict_by (field : string) (items : list pyval) (acc : pydict) : result pydict :=
  match items with
  | [] => Ok acc
  | x :: r =>
      let* k := py_get x field PNone in
      if hashable k then dict_by field r (dict_set acc k x) else Raise TypeError
  end.

(** ** Strings *)

(** [s.replace("Z", "+00:00")]: every occurrence, not only a suffix. *)
Fixpoint replace_Z (s : string) : string :=
  match s with
  | EmptyString => EmptyString
  | String c r =>
      if Ascii.eqb c "Z" then ("+00:00" ++ replace_Z r)%string else String c (replace_Z r)
  end.

Definition lower_ascii (c : ascii) : ascii :=
  let n := nat_of_ascii c in
  if (65 <=? n)%nat && (n <=? 90)%nat then ascii_of_nat (n + 32) else c.

(** [s.lower()] on the ASCII letters; no other character lowers to one of
    the letters of "over" and "under", which is all that is asked of the
    result. *)
Fixpoint lower (s : string) : string :=
  match s with
  | EmptyString => EmptyString
  | String c r => String (lower_ascii c) (lower r)
  end.

Definition startswith (s p : string) : bool := String.prefix p s.

(** [a < b] on strings: by code point, which on UTF-8 is by byte. *)
Definition str_lt (a b : string) : bool :=
  match String.compare a b with
  | Lt => true
  | _ => false
  end.

(** ** Dates and times

    A [datetime] is kept as its proleptic Gregorian ordinal (day 1 is
    0001-01-01, day [MAXORDINAL] is 9999-12-31), the microsecond within
    that day, and the UTC offset in microseconds of an aware value
    ([None] for a naive one).  The tzinfo of an aware value is thus a
    fixed offset, a [datetime.timezone]: this is what [timezone.utc]
    and [datetime.fromisoformat], the only sources of aware values in
    the program, produce.  A zone whose offset varies with the date
    (daylight saving) is not represented. *)
Record datetime : Type := mkdt {
  ordinal : Z;
  usec : Z;
  tzoffset : option Z
}.

Definition DAY : Z := 86400000000.
Definition MAXORDINAL : Z := 3652059.

Definition seconds (n : Z) : Z := n * 1000000.
Definition days (n : Z) : Z := n * DAY.

Definition valid_dt (d : datetime) : Prop :=
  1 <= ordinal d <= MAXORDINAL /\ 0 <= usec d < DAY.

(** Microseconds on the wall clock since day 0, and since day 0 in UTC. *)
Definition wall (d : datetime) : Z := ordinal d * DAY + usec d.

Definition instant (d : datetime) : Z :=
  wall d - match tzoffset d with Some o => o | None => 0 end.

(** [d.weekday()]: Monday is 0, Sunday is 6. *)
Definition weekday (d : datetime) : Z := (ordinal d + 6) mod 7.

(** [d + timedelta(microseconds=td)]; the result keeps the tzinfo, and
    must fall on a day between 1 and [MAXORDINAL]. *)
Definition dt_add (d : datetime) (td : Z) : result datetime :=
  let t := wall d + td in
  let o := t / DAY in
  if (0 <? o) && (o <=? MAXORDINAL)
  then Ok {| ordinal := o; usec := t mod DAY; tzoffset := tzoffset d |}
  else Raise OverflowError.

(** [d.replace(hour=0, minute=0, second=0, microsecond=0)] *)
Definition midnight (d : datetime) : datetime :=
  {| ordinal := ordinal d; usec := 0; tzoffset := tzoffset d |}.

(** [d.date()], as an ordinal: the date on [d]'s own wall clock. *)
Definition date (d : datetime) : Z := ordinal d.

(** The calendar date of the instant [d] on the UTC wall clock. *)
Definition utc_date (d : datetime) : Z := instant d / DAY.

(** [a <= b] and [a < b]: two aware values compare as instants, two
    naive ones as wall-clock readings, and one of each cannot be
    ordered. *)
Definition dt_le (a b : datetime) : result bool :=
  match tzoffset a, tzoffset b with
  | Some _, Some _ => Ok (instant a <=? instant b)
  | None, None => Ok (wall a <=? wall b)
  | _, _ => Raise TypeError
  end.

Definition dt_lt (a b : datetime) : result bool :=
  match tzoffset a, tzoffset b with
  | Some _, Some _ => Ok (instant a <? instant b)
  | None, None => Ok (wall a <? wall b)
  | _, _ => Raise TypeError
  end.

(** ** The host interpreter

    Three parsers of the Python runtime and the host's time zone are
    inputs of the model: what [float(s)] and [int(s)] make of a string,
    what [datetime.fromisoformat] makes of one ([None] is a
    [ValueError]), and the UTC offset the host gives to a naive wall-clock
    reading.  Every general theorem below holds for any host; [cpython]
    further down is the one used to run the code on concrete inputs. *)
Class Host : Type := {
  float_of_str : string -> option spec_float;
  int_of_str : string -> option Z;
  fromisoformat : string -> option datetime;
  local_utcoffset : Z -> Z -> Z
}.

(** A step that may also finish the enclosing function with [return
    None]: [Ok None] is that early return. *)
Definition bind_opt {A B : Type} (c : result (option A))
    (k : A -> result (option B)) : result (option B) :=
  match c with
  | Ok (Some a) => k a
  | Ok None => Ok None
  | Raise e => Raise e
  end.

Notation "'let?' x ':=' c 'in' k" := (bind_opt c (fun x => k))
  (at level 10, x name, c at level 100, k at level 200,
   format "'[v' 'let?'  x  :=  c  'in' '/' k ']'").

(** ** Config *)

Definition SPORTS (k : string) : option string :=
  if String.eqb k "nfl" then Some "americanfootball_nfl"
  else if String.eqb k "cfb" then Some "americanfootball_ncaaf"
  else None.

Definition BOOK_PRIORITY : list string :=
  ["DraftKings"; "FanDuel"; "BetMGM"; "Caesars"; "PointsBet (US)"; "bet365"].

Definition CACHE_TTL_SECS : Z := 45.

(** ** Models

    The pydantic models.  A [str] field takes a string and nothing else
    (a [ValidationError] otherwise, as pydantic 2 validates it); the [int]
    and [float] fields are only ever given values that [american_int],
    [float] and [abs] have already produced. *)
Module Moneyline.
Record t : Type := make { home : Z; away : Z }.
End Moneyline.

Module Spread.
Record t : Type := make { favorite : string; line : spec_float; price : Z }.
End Spread.

Module Total.
Record t : Type := make { line : spec_float; over_price : Z; under_price : Z }.
End Total.

Module Game.
Record t : Type := make {
  week : Z;
  kickoff_iso : string;
  home : string;
  away : string;
  moneyline : Moneyline.t;
  spread : Spread.t;
  total : Total.t
}.
End Game.

Definition validate_str (v : pyval) : result string :=
  match v with
  | PStr s => Ok s
  | _ => Raise ValidationError
  end.

Section Helpers.
Context {host : Host}.

(** *** Built-in conversions *)

(** [float(v)] *)
Definition py_float (v : pyval) : result spec_float :=
  match v with
  | PFloat x => Ok x
  | PInt n => float_of_int n
  | PBool b => Ok (float_of_Z (if b then 1 else 0))
  | PStr s => of_option ValueError (float_of_str s)
  | _ => Raise TypeError
  end.

(** [int(v)] *)
Definition py_int (v : pyval) : result Z :=
  match v with
  | PInt n => Ok n
  | PBool b => Ok (if b then 1 else 0)
  | PFloat x => int_of_float x
  | PStr s => of_option ValueError (int_of_str s)
  | _ => Raise TypeError
  end.

(** [d.astimezone(timezone.utc)] *)
Definition astimezone_utc (d : datetime) : result datetime :=
  match tzoffset d with
  | Some o =>
      if o =? 0 then Ok d
      else let* u := dt_add d (- o) in
           Ok {| ordinal := ordinal u; usec := usec u; tzoffset := Some 0 |}
  | None =>
      let* u := dt_add d (- local_utcoffset (ordinal d) (usec d)) in
      Ok {| ordinal := ordinal u; usec := usec u; tzoffset := Some 0 |}
  end.

(** *** Helpers of [main.py] *)

Definition football_week_window (now : datetime) : result (datetime * datetime) :=
  let wkday := weekday now in
  let* monday0 := dt_add now (- days wkday) in
  let monday := midnight monday0 in
  let* thursday := dt_add monday (days 3) in
  let* tuesday_next := dt_add monday (days 8) in
  let* start := astimezone_utc thursday in
  let* end_ := astimezone_utc tuesday_next in
  Ok (start, end_).

(** [for name in BOOK_PRIORITY: if name in by_name: return by_name[name]] *)
Fixpoint scan_priority (names : list string) (by_name : pydict) : option pyval :=
  match names with
  | [] => None
  | name :: rest =>
      match dict_lookup by_name (PStr name) with
      | Some b => Some b
      | None => scan_priority rest by_name
      end
  end.

Definition choose_book (bookmakers : pyval) : result pyval :=
  if negb (truthy bookmakers) then Ok PNone
  else
    let* items := py_iter bookmakers in
    let* by_name := dict_by "title" items [] in
    match scan_priority BOOK_PRIORITY by_name with
    | Some b => Ok b
    | None => py_first bookmakers
    end.

Definition american_int (x : pyval) : result Z :=
  match (let* f := py_float x in int_of_float f) with
  | Ok n => Ok n
  | Raise _ => py_int x
  end.

(** [m = markets.get(key); if not m or not m.get("outcomes"): return None],
    then the outcomes [m["outcomes"]]. *)
Definition market_outcomes (markets : pydict) (key : string) : result (option pyval) :=
  let* m := dict_get markets (PStr key) in
  if negb (truthy m) then Ok None
  else
    let* outs := py_get m "outcomes" PNone in
    if negb (truthy outs) then Ok None else Ok (Some outs).

(** [next((o for o in outs if test(o.get("name", default))), None)]: the
    outcomes after the first match are not looked at. *)
Fixpoint first_outcome (test : pyval -> bool) (default : pyval)
    (outs : list pyval) : result pyval :=
  match outs with
  | [] => Ok PNone
  | o :: rest =>
      let* name := py_get o "name" default in
      if test name then Ok o else first_outcome test default rest
  end.

(** [name in (team, label)] *)
Definition names_side (team : pyval) (label : string) (name : pyval) : bool :=
  py_eq team name || py_eq (PStr label) name.

(** [str(name).lower().startswith(p)].  The [str] of a value that is
    not a string starts with [N], [T], [F], a digit, [-], [i], [n], a
    bracket or a brace, and so never with "over" or "under". *)
Definition name_starts (p : string) (name : pyval) : bool :=
  match name with
  | PStr s => startswith (lower s) p
  | _ => false
  end.

(** [a or b], where [b] is only evaluated when [a] is falsy *)
Definition py_or (a : pyval) (b : result pyval) : result pyval :=
  if truthy a then Ok a else b.

(** The [# Moneyline] part of [map_event_to_game]. *)
Definition map_moneyline (home away : pyval) (markets : pydict)
    : result (option Moneyline.t) :=
  let? outs := market_outcomes markets "h2h" in
  let* items := py_iter outs in
  let* ml_out := dict_by "name" items [] in
  let* h := dict_get ml_out home in
  let* ml_home := py_or h (dict_get ml_out (PStr "Home")) in
  let* a := dict_get ml_out away in
  let* ml_away := py_or a (dict_get ml_out (PStr "Away")) in
  if negb (truthy ml_home) || negb (truthy ml_away) then Ok None
  else
    let* hp := py_get ml_home "price" PNone in
    let* hi := american_int hp in
    let* ap := py_get ml_away "price" PNone in
    let* ai := american_int ap in
    Ok (Some (Moneyline.make hi ai)).

(** The [# Spreads] part. *)
Definition map_spread (home away : pyval) (markets : pydict)
    : result (option Spread.t) :=
  let? outs := market_outcomes markets "spreads" in
  let* items := py_iter outs in
  let* spread_home := first_outcome (names_side home "Home") PNone items in
  let* spread_away := first_outcome (names_side away "Away") PNone items in
  if negb (truthy spread_home) || negb (truthy spread_away) then Ok None
  else
    let* hpt := py_get spread_home "point" PNone in
    let* home_point := py_float hpt in
    let* apt := py_get spread_away "point" PNone in
    let* away_point := py_float apt in
    if float_lt home_point away_point then
      let* p := py_get spread_home "price" PNone in
      let* price := american_int p in
      let* favorite := validate_str home in
      Ok (Some (Spread.make favorite (float_abs home_point) price))
    else
      let* p := py_get spread_away "price" PNone in
      let* price := american_int p in
      let* favorite := validate_str away in
      Ok (Some (Spread.make favorite (float_abs away_point) price)).

(** The [# Totals] part. *)
Definition map_total (markets : pydict) : result (option Total.t) :=
  let? outs := market_outcomes markets "totals" in
  let* items := py_iter outs in
  let* over := first_outcome (name_starts "over") (PStr "") items in
  let* under := first_outcome (name_starts "under") (PStr "") items in
  if negb (truthy over) || negb (truthy under) then Ok None
  else
    let* pt := py_get over "point" PNone in
    let* line := py_float pt in
    let* op := py_get over "price" PNone in
    let* over_price := american_int op in
    let* up := py_get under "price" PNone in
    let* under_price := american_int up in
    Ok (Some (Total.make line over_price under_price)).

Definition map_event_to_game (ev book : pyval) : result (option Game.t) :=
  let* home := py_get ev "home_team" PNone in
  let* away := py_get ev "away_team" PNone in
  let* ko_iso := py_get ev "commence_time" PNone in
  let week_guess := 1 in
  let* ms := py_get book "markets" (PList []) in
  let* items := py_iter ms in
  let* markets := dict_by "key" items [] in
  let? moneyline := map_moneyline home away markets in
  let? spread := map_spread home away markets in
  let? total := map_total markets in
  let* k := validate_str ko_iso in
  let* h := validate_str home in
  let* a := validate_str away in
  Ok (Some (Game.make week_guess k h a moneyline spread total)).

Definition within_window (commence_iso : pyval) (start end_ : datetime) : result bool :=
  match commence_iso with
  | PStr s =>
      match fromisoformat (replace_Z s) with
      | None => Ok false
      | Some dt =>
          let* after := dt_le start dt in
          if after then dt_le dt end_ else Ok false
      end
  | _ => Raise AttributeError
  end.

End Helpers.

(** ** The process state: cache and clock

    [_cache] is a module-level dict from keys to entries
    [{"data": ..., "exp": ...}].  The wall clock is an oracle: the
    [n]-th call of [datetime.now(timezone.utc)] reads [clock n], a number
    of microseconds since day 0, and every call advances [ticks]. *)
Record entry (A : Type) : Type := mkentry { data : A; exp : datetime }.
Arguments mkentry {A} data exp.
Arguments data {A} e.
Arguments exp {A} e.

Record world (A : Type) : Type := mkworld {
  cache : gmap string (entry A);
  clock : nat -> Z;
  ticks : nat
}.
Arguments mkworld {A} cache clock ticks.
Arguments cache {A} w.
Arguments clock {A} w n.
Arguments ticks {A} w.

(** A computation that reads and writes the process state and may
    raise; the state survives the exception. *)
Definition M (A X : Type) : Type := world A -> result X * world A.

Definition ret {A X : Type} (x : X) : M A X := fun w => (Ok x, w).

Definition lift {A X : Type} (c : result X) : M A X := fun w => (c, w).

Definition sbind {A X Y : Type} (c : M A X) (k : X -> M A Y) : M A Y :=
  fun w =>
    match c w with
    | (Ok x, w') => k x w'
    | (Raise e, w') => (Raise e, w')
    end.

Notation "'let!' x ':=' c 'in' k" := (sbind c (fun x => k))
  (at level 10, x name, c at level 100, k at level 200,
   format "'[v' 'let!'  x  :=  c  'in' '/' k ']'").

(** The aware UTC datetime of a clock reading. *)
Definition utc_of (t : Z) : datetime :=
  {| ordinal := t / DAY; usec := t mod DAY; tzoffset := Some 0 |}.

Section Cache.
Context {A : Type}.

Definition now_utc : M A datetime :=
  fun w => (Ok (utc_of (clock w (ticks w))),
            mkworld (cache w) (clock w) (S (ticks w))).

(** [e = _cache.get(key); if e and now_utc() < e["exp"]: return e["data"]];
    an entry is a two-key dict, hence truthy, and the clock is only read
    when there is one.  [None] is Python's [None]. *)
Definition cache_get (key : string) : M A (option A) :=
  fun w =>
    match cache w !! key with
    | None => (Ok None, w)
    | Some e =>
        (let! now := now_utc in
         let! fresh := lift (dt_lt now (exp e)) in
         ret (if fresh then Some (data e) else None)) w
    end.

Definition cache_set (key : string) (d : A) (ttl : Z) : M A unit :=
  let! now := now_utc in
  let! e := lift (dt_add now (seconds ttl)) in
  fun w => (Ok tt, mkworld (<[key := mkentry d e]> (cache w)) (clock w) (ticks w)).

End Cache.

(** ** Upstream

    What the handlers see of the provider: whether the API key is
    configured, and the response (or the transport failure) that a GET on
    a URL yields. *)
Record response : Type := mkresponse {
  status_code : Z;
  json : result pyval
}.

Record env : Type := mkenv {
  ODDS_API_KEY : option string;
  http_get : string -> result response
}.

Definition BASE_URL : string := "https://api.the-odds-api.com/v4".

Definition fetch_odds (e : env) (sport_key : string) : result pyval :=
  match ODDS_API_KEY e with
  | None | Some EmptyString => Raise (HTTPException 500)
  | Some _ =>
      let url := (BASE_URL ++ "/sports/" ++ sport_key ++ "/odds")%string in
      let* r := http_get e url in
      if status_code r =? 429 then Raise (HTTPException 503)
      else if negb (status_code r =? 200) then Raise (HTTPException 502)
      else json r
  end.

(** ** Routes *)

(** The payload [{"as_of": ..., "games": [...]}]; [as_of] is kept as the
    datetime whose [isoformat()] the code stores. *)
Record GamesResponse : Type := mkresp {
  as_of : datetime;
  games : list Game.t
}.

Section Routes.
Context {host : Host}.

(** A [for ev in evs:] loop whose body either skips the event
    ([continue], or a falsy [mapped]) or appends one game. *)
Fixpoint collect (body : pyval -> result (option Game.t)) (evs : list pyval)
    (acc : list Game.t) : result (list Game.t) :=
  match evs with
  | [] => Ok acc
  | ev :: rest =>
      let* mapped := body ev in
      collect body rest (match mapped with Some g => acc ++ [g] | None => acc end)
  end.

(** The tail shared by the three loops: pick a book, map the event. *)
Definition book_and_map (ev : pyval) : result (option Game.t) :=
  let* bms := py_get ev "bookmakers" (PList []) in
  let* book := choose_book bms in
  if negb (truthy book) then Ok None
  else map_event_to_game ev book.

Definition weekend_body (start end_ : datetime) (ev : pyval) : result (option Game.t) :=
  let* ct := py_get ev "commence_time" (PStr "") in
  let* inside := within_window ct start end_ in
  if negb inside then Ok None else book_and_map ev.

(** The date test inlined in [nfl_today]:
    [iso = ct.replace("Z", "+00:00")], [fromisoformat] under
    [except ValueError: continue], then [dt.date() != today]. *)
Definition is_today (ct : pyval) (today : Z) : result bool :=
  match ct with
  | PStr s =>
      match fromisoformat (replace_Z s) with
      | None => Ok false
      | Some dt => Ok (date dt =? today)
      end
  | _ => Raise AttributeError
  end.

Definition today_body (today : Z) (ev : pyval) : result (option Game.t) :=
  let* ct := py_get ev "commence_time" (PStr "") in
  let* same := is_today ct today in
  if negb same then Ok None else book_and_map ev.

(** [sorted(raw, key=lambda e: e.get("commence_time", ""))]: the keys
    are computed first, then the events are put in order, stably.  Only
    string keys are modelled: in [nfl_today] the date loop has called
    [.replace] on every key before the sort is reached. *)
Fixpoint commence_keys (evs : list pyval) : result (list (string * pyval)) :=
  match evs with
  | [] => Ok []
  | ev :: rest =>
      let* k := py_get ev "commence_time" (PStr "") in
      match k with
      | PStr s => let* ks := commence_keys rest in Ok ((s, ev) :: ks)
      | _ => Raise TypeError
      end
  end.

Fixpoint insert_by_key (x : string * pyval) (l : list (string * pyval))
    : list (string * pyval) :=
  match l with
  | [] => [x]
  | y :: r => if str_lt (fst x) (fst y) then x :: l else y :: insert_by_key x r
  end.

Definition sort_by_key (l : list (string * pyval)) : list (string * pyval) :=
  fold_left (fun acc x => insert_by_key x acc) l [].

Definition sorted_by_commence (evs : list pyval) : result (list pyval) :=
  let* ks := commence_keys evs in
  Ok (map snd (sort_by_key ks)).

(** The games of [/nfl/weekend] and [/cfb/weekend]. *)
Definition weekend_games (now : datetime) (raw : pyval) : result (list Game.t) :=
  let* win := football_week_window now in
  let* evs := py_iter raw in
  collect (weekend_body (fst win) (snd win)) evs [].

(** The games of [/nfl/today], with the two-event fallback. *)
Definition today_games (today : Z) (raw : pyval) : result (list Game.t) :=
  let* evs := py_iter raw in
  let* found := collect (today_body today) evs [] in
  match found with
  | [] =>
      let* ordered := sorted_by_commence evs in
      collect book_and_map (firstn 2 ordered) []
  | _ => Ok found
  end.

Definition weekend (key sport : string) (e : env) : M GamesResponse GamesResponse :=
  let! cached := cache_get key in
  match cached with
  | Some d => ret d
  | None =>
      let! sport_key := lift (of_option KeyError (SPORTS sport)) in
      let! raw := lift (fetch_odds e sport_key) in
      let! now := now_utc in
      let! gs := lift (weekend_games now raw) in
      let! t := now_utc in
      let d := {| as_of := t; games := gs |} in
      let! _ := cache_set key d CACHE_TTL_SECS in
      ret d
  end.

Definition nfl_weekend : env -> M GamesResponse GamesResponse :=
  weekend "nfl_weekend" "nfl".

Definition cfb_weekend : env -> M GamesResponse GamesResponse :=
  weekend "cfb_weekend" "cfb".

Definition nfl_today (e : env) : M GamesResponse GamesResponse :=
  let key := "nfl_today" in
  let! cached := cache_get key in
  match cached with
  | Some d => ret d
  | None =>
      let! sport_key := lift (of_option KeyError (SPORTS "nfl")) in
      let! raw := lift (fetch_odds e sport_key) in
      let! now := now_utc in
      let today := date now in
      let! gs := lift (today_games today raw) in
      let! t := now_utc in
      let d := {| as_of := t; games := gs |} in
      let! _ := cache_set key d CACHE_TTL_SECS in
      ret d
  end.

End Routes.


(** ** A concrete host

    [cpython] runs the model on concrete inputs.  Its parsers follow the
    grammars of the Python documentation on ASCII input:
    [YYYY-MM-DD[*HH[:MM[:SS[.fff[fff]]]][+HH:MM[:SS[.ffffff]]]]] for
    [fromisoformat], a signed decimal literal with optional fraction and
    exponent, [inf], [infinity] or [nan] for [float], a signed run of
    digits for [int]; the host's zone is UTC. *)
Module Cpython.

Definition digit (c : ascii) : option Z :=
  let n := Z.of_nat (nat_of_ascii c) in
  if (48 <=? n) && (n <=? 57) then Some (n - 48) else None.

Fixpoint digits_value (cs : list ascii) (acc : Z) : option Z :=
  match cs with
  | [] => Some acc
  | c :: r =>
      match digit c with
      | Some d => digits_value r (10 * acc + d)
      | None => None
      end
  end.

Definition number_of (cs : list ascii) : option Z :=
  match cs with
  | [] => None
  | _ => digits_value cs 0
  end.

Definition two_digits (cs : list ascii) : option (Z * list ascii) :=
  match cs with
  | a :: b :: r =>
      match digit a, digit b with
      | Some x, Some y => Some (10 * x + y, r)
      | _, _ => None
      end
  | _ => None
  end.

Definition expect (c : ascii) (cs : list ascii) : option (list ascii) :=
  match cs with
  | x :: r => if Ascii.eqb x c then Some r else None
  | [] => None
  end.

(** *** The calendar *)

Definition is_leap (y : Z) : bool :=
  (y mod 4 =? 0) && (negb (y mod 100 =? 0) || (y mod 400 =? 0)).

Definition days_in_month (y m : Z) : Z :=
  if m =? 2 then (if is_leap y then 29 else 28)
  else if (m =? 4) || (m =? 6) || (m =? 9) || (m =? 11) then 30
  else 31.

Definition days_before_month (y m : Z) : Z :=
  fold_left (fun acc k => acc + days_in_month y k)
            (map Z.of_nat (seq 1 (Z.to_nat (m - 1)))) 0.

Definition days_before_year (y : Z) : Z :=
  let p := y - 1 in p * 365 + p / 4 - p / 100 + p / 400.

Definition ymd2ord (y m d : Z) : Z :=
  days_before_year y + days_before_month y m + d.

(** *** [datetime.fromisoformat] *)

(** [HH[:MM[:SS[.fff[fff]]]]] *)
Definition parse_hh_mm_ss_ff (cs : list ascii) : option (Z * Z * Z * Z) :=
  '(hh, r1) ← two_digits cs;
  match r1 with
  | [] => Some (hh, 0, 0, 0)
  | _ =>
      r1' ← expect ":" r1;
      '(mm, r2) ← two_digits r1';
      match r2 with
      | [] => Some (hh, mm, 0, 0)
      | _ =>
          r2' ← expect ":" r2;
          '(ss, r3) ← two_digits r2';
          match r3 with
          | [] => Some (hh, mm, ss, 0)
          | _ =>
              r3' ← expect "." r3;
              f ← number_of r3';
              let n := Z.of_nat (length r3') in
              if n =? 3 then Some (hh, mm, ss, f * 1000)
              else if n =? 6 then Some (hh, mm, ss, f)
              else None
          end
      end
  end.

(** The time up to the first sign, and the sign and what follows it. *)
Fixpoint split_sign (cs : list ascii) : list ascii * option (bool * list ascii) :=
  match cs with
  | [] => ([], None)
  | c :: r =>
      if Ascii.eqb c "+" then ([], Some (false, r))
      else if Ascii.eqb c "-" then ([], Some (true, r))
      else let '(t, z) := split_sign r in (c :: t, z)
  end.

Definition micros (hh mm ss ff : Z) : Z := ((hh * 60 + mm) * 60 + ss) * 1000000 + ff.

Definition parse_offset (neg : bool) (cs : list ascii) : option Z :=
  let n := Z.of_nat (length cs) in
  if (n =? 5) || (n =? 8) || (n =? 15) then
    '(hh, mm, ss, ff) ← parse_hh_mm_ss_ff cs;
    let off := micros hh mm ss ff in
    if off <? DAY then Some (if neg then - off else off) else None
  else None.

Definition parse_time (ord : Z) (cs : list ascii) : option datetime :=
  let '(t, z) := split_sign cs in
  '(hh, mm, ss, ff) ← parse_hh_mm_ss_ff t;
  if (hh <? 24) && (mm <? 60) && (ss <? 60) then
    match z with
    | None => Some (mkdt ord (micros hh mm ss ff) None)
    | Some (neg, tz) =>
        off ← parse_offset neg tz;
        Some (mkdt ord (micros hh mm ss ff) (Some off))
    end
  else None.

Definition fromisoformat (s : string) : option datetime :=
  match list_ascii_of_string s with
  | y1 :: y2 :: y3 :: y4 :: c4 :: m1 :: m2 :: c7 :: d1 :: d2 :: rest =>
      y ← number_of [y1; y2; y3; y4];
      m ← number_of [m1; m2];
      d ← number_of [d1; d2];
      if Ascii.eqb c4 "-" && Ascii.eqb c7 "-"
         && (1 <=? y) && (1 <=? m) && (m <=? 12)
         && (1 <=? d) && (d <=? days_in_month y m)
      then
        match rest with
        | [] => Some (mkdt (ymd2ord y m d) 0 None)
        | _ :: tstr => parse_time (ymd2ord y m d) tstr
        end
      else None
  | _ => None
  end.

(** *** [float(s)] and [int(s)] *)

Definition is_space (c : ascii) : bool :=
  let n := Z.of_nat (nat_of_ascii c) in
  (n =? 32) || ((9 <=? n) && (n <=? 13)).

Fixpoint lstrip (cs : list ascii) : list ascii :=
  match cs with
  | c :: r => if is_space c then lstrip r else cs
  | [] => []
  end.

Definition strip (cs : list ascii) : list ascii := rev (lstrip (rev (lstrip cs))).

Definition split_neg (cs : list ascii) : bool * list ascii :=
  match cs with
  | c :: r =>
      if Ascii.eqb c "-" then (true, r)
      else if Ascii.eqb c "+" then (false, r)
      else (false, cs)
  | [] => (false, [])
  end.

(** [digit (["_"] digit)*] after its first digit: the value so far, the
    number of digits read, and what is left. *)
Fixpoint digitpart_tail (cs : list ascii) (acc n : Z) : Z * Z * list ascii :=
  match cs with
  | [] => (acc, n, [])
  | c :: r =>
      match digit c with
      | Some d => digitpart_tail r (10 * acc + d) (n + 1)
      | None =>
          if Ascii.eqb c "_" then
            match r with
            | c2 :: r2 =>
                match digit c2 with
                | Some d2 => digitpart_tail r2 (10 * acc + d2) (n + 1)
                | None => (acc, n, cs)
                end
            | [] => (acc, n, cs)
            end
          else (acc, n, cs)
      end
  end.

Definition digitpart (acc : Z) (cs : list ascii) : option (Z * Z * list ascii) :=
  match cs with
  | c :: r =>
      match digit c with
      | Some d => Some (digitpart_tail r (10 * acc + d) 1)
      | None => None
      end
  | [] => None
  end.

Definition int_of_str (s : string) : option Z :=
  let '(neg, cs) := split_neg (strip (list_ascii_of_string s)) in
  '(v, _, rest) ← digitpart 0 cs;
  match rest with
  | [] => Some (if neg then - v else v)
  | _ => None
  end.

(** The binary64 nearest to [m * 10^e10], ties to even. *)
Definition float_of_decimal (neg : bool) (m e10 : Z) : spec_float :=
  if m =? 0 then S754_zero neg
  else if 0 <=? e10 then
    binary_normalize prec emax (cond_Zopp neg (m * 10 ^ e10)) 0 false
  else
    let '(q, e, l) := SFdiv_core_binary prec emax m 0 (10 ^ (- e10)) 0 in
    binary_round_aux prec emax neg q e l.

(** [[digitpart] "." digitpart | digitpart ["."]]: mantissa, decimal
    exponent and what is left. *)
Definition parse_number (cs : list ascii) : option (Z * Z * list ascii) :=
  match digitpart 0 cs with
  | Some (ip, _, r) =>
      match expect "." r with
      | Some r' =>
          match digitpart ip r' with
          | Some (m, n, r'') => Some (m, - n, r'')
          | None => Some (ip, 0, r')
          end
      | None => Some (ip, 0, r)
      end
  | None =>
      r' ← expect "." cs;
      '(m, n, r'') ← digitpart 0 r';
      Some (m, - n, r'')
  end.

Definition parse_exponent (cs : list ascii) : option Z :=
  match cs with
  | [] => Some 0
  | c :: r =>
      if Ascii.eqb c "e" || Ascii.eqb c "E" then
        let '(neg, r') := split_neg r in
        '(v, _, rest) ← digitpart 0 r';
        match rest with
        | [] => Some (if neg then - v else v)
        | _ => None
        end
      else None
  end.

Definition float_of_str (s : string) : option spec_float :=
  let '(neg, cs) := split_neg (strip (list_ascii_of_string s)) in
  let word := lower (string_of_list_ascii cs) in
  if String.eqb word "inf" || String.eqb word "infinity" then Some (S754_infinity neg)
  else if String.eqb word "nan" then Some S754_nan
  else
    '(m, e, rest) ← parse_number cs;
    x ← parse_exponent rest;
    Some (float_of_decimal neg m (e + x)).

End Cpython.

#[global] Instance cpython : Host := {|
  float_of_str := Cpython.float_of_str;
  int_of_str := Cpython.int_of_str;
  fromisoformat := Cpython.fromisoformat;
  local_utcoffset := fun _ _ => 0
|}.


(** ** Vocabulary of the statements *)

(** [x] is a dict whose entry [field] is the string [name]. *)
Definition field_is (field name : string) (x : pyval) : bool :=
  match x with
  | PDict d =>
      match assoc field d with
      | Some (PStr t) => String.eqb t name
      | _ => false
      end
  | _ => false
  end.

(** [x] can be keyed by its entry [field]: it is a dict, and the entry
    (or [None] for a missing one) is hashable. *)
Definition keyed (field : string) (x : pyval) : bool :=
  match py_get x field PNone with
  | Ok k => hashable k
  | Raise _ => false
  end.

(** The last element of [l] that satisfies [p]. *)
Fixpoint find_last (p : pyval -> bool) (l : list pyval) : option pyval :=
  match l with
  | [] => None
  | x :: r =>
      match find_last p r with
      | Some y => Some y
      | None => if p x then Some x else None
      end
  end.

(** The bookmaker that the first of [names] with a titled bookmaker in
    [bs] selects. *)
Fixpoint scan_titles (names : list string) (bs : list pyval) : option pyval :=
  match names with
  | [] => None
  | name :: rest =>
      match find_last (field_is "title" name) bs with
      | Some b => Some b
      | None => scan_titles rest bs
      end
  end.

(** The markets of a bookmaker by key, [{m.get("key"): m for m in
    book.get("markets", [])}]; the point and the price of an outcome as
    the code reads them. *)
Definition book_markets (book : pyval) : result pydict :=
  let* ms := py_get book "markets" (PList []) in
  let* items := py_iter ms in
  dict_by "key" items [].

Definition point_of {host : Host} (o : pyval) : result spec_float :=
  let* v := py_get o "point" PNone in py_float v.

Definition price_of {host : Host} (o : pyval) : result Z :=
  let* p := py_get o "price" PNone in american_int p.

(** [o] is the first of [items] whose name passes [test]. *)
Definition first_match (test : pyval -> bool) (items : list pyval) (o : pyval) : Prop :=
  exists l1 l2 n,
    items = l1 ++ o :: l2
    /\ Forall (fun x => exists m, py_get x "name" PNone = Ok m /\ test m = false) l1
    /\ py_get o "name" PNone = Ok n /\ test n = true.

(** The market [key] is absent from [items], the markets of a bookmaker,
    or the last market with that key has no outcomes to offer. *)
Definition market_missing (key : string) (items : list pyval) : bool :=
  match find_last (field_is "key" key) items with
  | None => true
  | Some m =>
      match py_get m "outcomes" PNone with
      | Ok outs => negb (truthy outs)
      | Raise _ => false
      end
  end.

(** The games of the events of [evs] that [body] maps to one. *)
Definition kept (body : pyval -> result (option Game.t)) (evs : list pyval) : list Game.t :=
  flat_map (fun ev => match body ev with Ok (Some g) => [g] | _ => [] end) evs.




(** ** Vocabulary of the further properties *)

(** The three data routes, each with its cache key and the sport key it
    queries upstream. *)
Definition route : Type := env -> M GamesResponse GamesResponse.

Definition routes {host : Host} : list (string * string * route) :=
  [("nfl_weekend", "americanfootball_nfl", nfl_weekend);
   ("nfl_today", "americanfootball_nfl", nfl_today);
   ("cfb_weekend", "americanfootball_ncaaf", cfb_weekend)].

(** The state after [n] more readings of the clock. *)
Definition tick {A : Type} (n : nat) (w : world A) : world A :=
  mkworld (cache w) (clock w) (n + ticks w)%nat.

(** What a route does once the cache has given nothing: fetch, compute
    the games from the first clock reading, stamp the payload with the
    second, store it and return it. *)
Definition serve_miss (games_of : datetime -> pyval -> result (list Game.t))
    (key sport_key : string) (e : env) : M GamesResponse GamesResponse :=
  let! raw := lift (fetch_odds e sport_key) in
  let! now := now_utc in
  let! gs := lift (games_of now raw) in
  let! t := now_utc in
  let d := {| as_of := t; games := gs |} in
  let! _ := cache_set key d CACHE_TTL_SECS in
  ret d.

(** The entries that the routes leave in the cache: under one of the
    three keys, with an aware UTC expiry. *)
Definition cache_keys : list string := ["nfl_weekend"; "nfl_today"; "cfb_weekend"].

Definition cache_inv (w : world GamesResponse) : Prop :=
  forall k en, cache w !! k = Some en ->
    In k cache_keys /\ tzoffset (exp en) = Some 0.

(** The state after a sequence of requests served one after another. *)
Definition serve_all (reqs : list (route * env)) (w : world GamesResponse)
    : world GamesResponse :=
  fold_left (fun w r => snd (fst r (snd r) w)) reqs w.

(** The URL that [fetch_odds] requests for a sport. *)
Definition odds_url (sport_key : string) : string :=
  (BASE_URL ++ "/sports/" ++ sport_key ++ "/odds")%string.

(** The outcome that the moneyline takes for a side: the last outcome
    named as the team, or else the last one named by the label. *)
Definition pick_named (team label : string) (items : list pyval) : option pyval :=
  match find_last (field_is "name" team) items with
  | Some o => Some o
  | None => find_last (field_is "name" label) items
  end.

(** [o] is the first of [items] whose name, read with [default] for a
    missing one, passes [test]. *)
Definition first_with (test : pyval -> bool) (default : pyval)
    (items : list pyval) (o : pyval) : Prop :=
  exists l1 l2 n,
    items = l1 ++ o :: l2
    /\ Forall (fun x => exists m, py_get x "name" default = Ok m /\ test m = false) l1
    /\ py_get o "name" default = Ok n /\ test n = true.

(** The kick-off string of a game parses to a datetime that satisfies
    [P]. *)
Definition kickoff_at {host : Host} (P : datetime -> Prop) (g : Game.t) : Prop :=
  exists dt, fromisoformat (replace_Z (Game.kickoff_iso g)) = Some dt /\ P dt.

(** [g] is the game that the loops make of the event [ev]: the
    normalisation of [ev] with the bookmaker chosen among its own. *)
Definition game_of {host : Host} (ev : pyval) (g : Game.t) : Prop :=
  exists bms book,
    py_get ev "bookmakers" (PList []) = Ok bms
    /\ choose_book bms = Ok book
    /\ map_event_to_game ev book = Ok (Some g).

(** ** Concrete inputs *)

(** Wednesday 2024-01-03 12:00 UTC, and the window of its week: Thursday
    2024-01-04 00:00 to Tuesday 2024-01-09 00:00. *)
Definition wed_noon : datetime := mkdt 738888 43200000000 (Some 0).
Definition thu_start : datetime := mkdt 738889 0 (Some 0).
Definition tue_end : datetime := mkdt 738894 0 (Some 0).

(** Thursday 9999-12-30 00:00 UTC, in the last week of the calendar. *)
Definition last_thursday : datetime := mkdt 3652058 0 (Some 0).

(** A kick-off inside that window, one exactly at its end, and one whose
    timestamp carries no offset. *)
Definition fri_evening_iso : string := "2024-01-05T18:00:00Z".
Definition tue_midnight_iso : string := "2024-01-09T00:00:00Z".
Definition naive_iso : string := "2024-01-04T12:00:00".

(** 01:00 on 2024-01-02 at UTC+5, which is 20:00 on 2024-01-01 in UTC. *)
Definition offset_iso : string := "2024-01-02T01:00:00+05:00".
Definition jan_2 : Z := 738887.

(** A process that has just started at 2024-01-03 12:00:00 UTC, with an
    empty cache and a clock that moves 10 seconds between readings. *)
Definition start_clock (n : nat) : Z := 63839966400000000 + Z.of_nat n * 10000000.
Definition fresh_world (A : Type) : world A := mkworld ∅ start_clock 0.

(** The bookmaker lists of the specification's examples. *)
Definition book (title : string) : pyval := PDict [("title", PStr title)].
Definition fanduel_draftkings : list pyval := [book "FanDuel"; book "DraftKings"].
Definition unknown_only : list pyval := [book "Unknown Book"].

(** The well-formed event of the specification: home A, away B,
    moneyline -150 / +130, spread -3.5 / +3.5 at -110, total 48.5 at
    -105 / -115. *)
Definition minus_3_5 : spec_float := S754_finite true 7881299347898368 (-51).
Definition plus_3_5 : spec_float := S754_finite false 7881299347898368 (-51).
Definition f_48_5 : spec_float := S754_finite false 6825768185233408 (-47).

Definition outcome (name : string) (price : Z) : pyval :=
  PDict [("name", PStr name); ("price", PInt price)].
Definition outcome_at (name : string) (price : Z) (point : spec_float) : pyval :=
  PDict [("name", PStr name); ("price", PInt price); ("point", PFloat point)].
Definition market (key : string) (outcomes : list pyval) : pyval :=
  PDict [("key", PStr key); ("outcomes", PList outcomes)].

Definition h2h_AB : pyval := market "h2h" [outcome "A" (-150); outcome "B" 130].
Definition spreads_AB : pyval :=
  market "spreads" [outcome_at "A" (-110) minus_3_5; outcome_at "B" (-110) plus_3_5].
Definition totals_AB : pyval :=
  market "totals" [outcome_at "Over" (-105) f_48_5; outcome_at "Under" (-115) f_48_5].

Definition event_with (commence : string) (bookmakers : list pyval) : pyval :=
  PDict [("home_team", PStr "A"); ("away_team", PStr "B");
         ("commence_time", PStr commence); ("bookmakers", PList bookmakers)].
Definition book_with (markets : list pyval) : pyval :=
  PDict [("title", PStr "DraftKings"); ("markets", PList markets)].

Definition good_book : pyval := book_with [h2h_AB; spreads_AB; totals_AB].
Definition good_event : pyval := event_with fri_evening_iso [good_book].

Definition good_game : Game.t :=
  Game.make 1 fri_evening_iso "A" "B"
    (Moneyline.make (-150) 130)
    (Spread.make "A" plus_3_5 (-110))
    (Total.make f_48_5 (-105) (-115)).

(** A bookmaker that quotes no totals and whose spreads carry no point. *)
Definition spreads_no_point : pyval :=
  market "spreads" [outcome "A" (-110); outcome "B" (-110)].
Definition book_no_totals : pyval := book_with [h2h_AB; spreads_no_point].

(** A bookmaker that only quotes the moneyline. *)
Definition book_h2h_only : pyval := book_with [h2h_AB].

(** An event inside the window whose bookmaker has spreads without
    points, an event whose moneyline price is not a number, and a
    provider that answers 200 with a given document. *)
Definition bad_event : pyval := event_with fri_evening_iso [book_no_totals].
Definition bad_price_event : pyval :=
  event_with fri_evening_iso
    [book_with [market "h2h" [PDict [("name", PStr "A"); ("price", PStr "n/a")];
                              outcome "B" 130];
                spreads_AB; totals_AB]].
Definition provider (raw : pyval) : env :=
  mkenv (Some "k") (fun _ => Ok (mkresponse 200 (Ok raw))).

(** Three good events on Saturday, Friday and Sunday, and the games of
    the two earliest. *)
Definition sat_iso : string := "2024-01-06T18:00:00Z".
Definition sun_iso : string := "2024-01-07T18:00:00Z".
Definition game_at (commence : string) : Game.t :=
  Game.make 1 commence "A" "B"
    (Moneyline.make (-150) 130)
    (Spread.make "A" plus_3_5 (-110))
    (Total.make f_48_5 (-105) (-115)).
Definition three_events : list pyval :=
  [event_with sat_iso [good_book]; event_with fri_evening_iso [good_book];
   event_with sun_iso [good_book]].

(** A server without API key, and providers that answer with a status
    other than 200. *)
Definition no_key : env := mkenv None (fun _ => Ok (mkresponse 200 (Ok (PList [])))).
Definition answering (status : Z) : env :=
  mkenv (Some "k") (fun _ => Ok (mkresponse status (Ok (PList [])))).



(** A state in which [/nfl/today] has a payload cached until Tuesday
    2024-01-09, read at the clock of [fresh_world]. *)
Definition stored_world : world GamesResponse :=
  mkworld (<["nfl_today" := mkentry (mkresp wed_noon [good_game]) tue_end]> ∅)
          start_clock 0.

(** A bookmaker whose h2h market lists the home side three times: under
    the label "Home", then twice under the team name; and the game it
    gives, with the price of the last outcome named as the team. *)
Definition relisting_book : pyval :=
  book_with [market "h2h" [outcome "A" (-150); outcome "Home" (-200);
                           outcome "B" 130; outcome "A" (-170)];
             spreads_AB; totals_AB].

Definition relisted_game : Game.t :=
  Game.make 1 fri_evening_iso "A" "B"
    (Moneyline.make (-170) 130)
    (Spread.make "A" plus_3_5 (-110))
    (Total.make f_48_5 (-105) (-115)).

(** * Properties *)

(** ** Dates and times *)

Lemma weekday_range d : 0 <= weekday d < 7.
Proof. unfold weekday. apply Z.mod_pos_bound. lia. Qed.

Lemma weekday_le_ordinal d : 1 <= ordinal d -> weekday d <= ordinal d - 1.
Proof.
  intros Hd. unfold weekday.
  replace (ordinal d + 6) with (ordinal d - 1 + 1 * 7) by lia.
  rewrite Z.mod_add by lia. apply Z.mod_le; lia.
Qed.

Lemma weekday_shift d k t z :
  weekday (mkdt (ordinal d - weekday d + k) t z) = k mod 7.
Proof.
  unfold weekday. simpl.
  pose proof (Z.div_mod (ordinal d + 6) 7 ltac:(lia)) as E.
  replace (ordinal d - (ordinal d + 6) mod 7 + k + 6)
    with (k + ((ordinal d + 6) / 7) * 7) by lia.
  apply Z.mod_add. lia.
Qed.

Lemma DAY_pos : 0 < DAY.
Proof. reflexivity. Qed.

Lemma wall_plus_days d k :
  0 <= usec d < DAY ->
  (wall d + days k) / DAY = ordinal d + k /\ (wall d + days k) mod DAY = usec d.
Proof.
  intros Hu. unfold wall, days.
  replace (ordinal d * DAY + usec d + k * DAY) with (usec d + (ordinal d + k) * DAY) by lia.
  rewrite Z.div_add, Z.mod_add by (pose proof DAY_pos; lia).
  rewrite Z.div_small, Z.mod_small by lia. lia.
Qed.

Lemma dt_add_days d k :
  0 <= usec d < DAY ->
  0 < ordinal d + k <= MAXORDINAL ->
  dt_add d (days k) = Ok (mkdt (ordinal d + k) (usec d) (tzoffset d)).
Proof.
  intros Hu Hk. unfold dt_add.
  destruct (wall_plus_days d k Hu) as [-> ->].
  destruct (Z.ltb_spec 0 (ordinal d + k)); [| lia].
  destruct (Z.leb_spec (ordinal d + k) MAXORDINAL); [| lia].
  reflexivity.
Qed.

Lemma dt_add_days_overflow d k :
  0 <= usec d < DAY ->
  MAXORDINAL < ordinal d + k ->
  dt_add d (days k) = Raise OverflowError.
Proof.
  intros Hu Hk. unfold dt_add.
  destruct (wall_plus_days d k Hu) as [-> ->].
  destruct (Z.leb_spec (ordinal d + k) MAXORDINAL); [lia |].
  now rewrite andb_false_r.
Qed.

Lemma instant_utc_of t : instant (utc_of t) = t.
Proof.
  unfold instant, utc_of, wall. simpl.
  pose proof (Z.div_mod t DAY ltac:(pose proof DAY_pos; lia)). lia.
Qed.

Section WindowFacts.
Context {host : Host}.

Lemma astimezone_utc_aware d u : astimezone_utc d = Ok u -> tzoffset u = Some 0.
Proof.
  unfold astimezone_utc. destruct (tzoffset d) as [o|] eqn:E.
  - destruct (Z.eqb_spec o 0) as [->|].
    + intros [= <-]. exact E.
    + destruct (dt_add d (- o)); simpl; [intros [= <-]; reflexivity | discriminate].
  - destruct (dt_add d _); simpl; [intros [= <-]; reflexivity | discriminate].
Qed.

Lemma football_week_window_aware now s e :
  football_week_window now = Ok (s, e) -> tzoffset s = Some 0 /\ tzoffset e = Some 0.
Proof.
  unfold football_week_window.
  destruct (dt_add now _) as [m0|]; simpl; [| discriminate].
  destruct (dt_add (midnight m0) (days 3)) as [th|]; simpl; [| discriminate].
  destruct (dt_add (midnight m0) (days 8)) as [tu|]; simpl; [| discriminate].
  destruct (astimezone_utc th) as [s'|] eqn:Es; simpl; [| discriminate].
  destruct (astimezone_utc tu) as [e'|] eqn:Ee; simpl; [| discriminate].
  intros [= <- <-]. eauto using astimezone_utc_aware.
Qed.

(** The window of a UTC instant, as long as the Tuesday after its week
    is still a date. *)
Lemma football_week_window_utc now :
  tzoffset now = Some 0 -> valid_dt now ->
  ordinal now - weekday now + 8 <= MAXORDINAL ->
  football_week_window now
  = Ok (mkdt (ordinal now - weekday now + 3) 0 (Some 0),
        mkdt (ordinal now - weekday now + 8) 0 (Some 0)).
Proof.
  intros Htz [Ho Hu] Hmax.
  pose proof (weekday_range now) as Hw.
  pose proof (weekday_le_ordinal now ltac:(lia)) as Hl.
  unfold football_week_window.
  replace (- days (weekday now)) with (days (- weekday now)) by (unfold days; lia).
  rewrite dt_add_days by lia. simpl.
  unfold midnight. simpl.
  rewrite !dt_add_days by (simpl; pose proof DAY_pos; lia). simpl.
  unfold astimezone_utc. simpl. rewrite Htz. simpl.
  do 2 f_equal; f_equal; lia.
Qed.

End WindowFacts.

(** C4, as amended.  For every UTC instant [now] whose week's Monday
    plus 8 days is still a date of the calendar (that is, up to the end
    of Sunday 9999-12-26), [football_week_window now] returns 00:00 UTC
    of the Thursday of the week containing [now] (the Monday on or
    before [now], plus 3 days) as start, and as end the Tuesday 00:00
    exactly 5 days after the start. *)
Theorem football_week_window_thursday_to_tuesday {host : Host} (now : datetime) :
  tzoffset now = Some 0 -> valid_dt now ->
  ordinal now - weekday now + 8 <= MAXORDINAL ->
  let monday := ordinal now - weekday now in
  exists start end_,
    football_week_window now = Ok (start, end_)
    /\ weekday (mkdt monday 0 (Some 0)) = 0
    /\ monday <= ordinal now < monday + 7
    /\ start = mkdt (monday + 3) 0 (Some 0)
    /\ weekday start = 3
    /\ end_ = mkdt (monday + 8) 0 (Some 0)
    /\ weekday end_ = 1
    /\ instant end_ - instant start = days 5.
Proof.
  intros Htz Hv Hmax monday.
  pose proof (weekday_range now) as Hw.
  eexists _, _. split; [apply football_week_window_utc; assumption |].
  subst monday.
  split. { replace (ordinal now - weekday now) with (ordinal now - weekday now + 0) by lia.
           now rewrite weekday_shift. }
  split; [lia |].
  split; [reflexivity |].
  split; [now rewrite weekday_shift |].
  split; [reflexivity |].
  split; [now rewrite weekday_shift |].
  unfold instant, wall, days. simpl. lia.
Qed.

Lemma football_week_window_thursday_to_tuesday_witness :
  exists start end_,
    football_week_window wed_noon = Ok (start, end_)
    /\ weekday (mkdt 738886 0 (Some 0)) = 0
    /\ 738886 <= ordinal wed_noon < 738886 + 7
    /\ start = thu_start
    /\ weekday start = 3
    /\ end_ = tue_end
    /\ weekday end_ = 1
    /\ instant end_ - instant start = days 5.
Proof.
  apply (football_week_window_thursday_to_tuesday wed_noon).
  - reflexivity.
  - unfold valid_dt, wed_noon, MAXORDINAL, DAY. simpl. lia.
  - vm_compute. discriminate.
Defined.

(** C4 as stated fails in the last week of the calendar: on Thursday
    9999-12-30, a UTC instant, the Tuesday after does not exist and the
    function raises instead of returning a window. *)
Lemma football_week_window_last_week_raises :
  tzoffset last_thursday = Some 0 /\ valid_dt last_thursday
  /\ football_week_window last_thursday = Raise OverflowError.
Proof.
  split; [reflexivity |]. split.
  - unfold valid_dt, last_thursday, MAXORDINAL, DAY. simpl. lia.
  - vm_compute. reflexivity.
Qed.

(** ** The window test *)

Lemma dt_le_aware a b oa ob :
  tzoffset a = Some oa -> tzoffset b = Some ob ->
  dt_le a b = Ok (instant a <=? instant b).
Proof. intros Ha Hb. unfold dt_le. now rewrite Ha, Hb. Qed.

Lemma dt_le_mixed a b o :
  tzoffset a = Some o -> tzoffset b = None -> dt_le a b = Raise TypeError.
Proof. intros Ha Hb. unfold dt_le. now rewrite Ha, Hb. Qed.

(** C3, as amended.  The weekend window is closed at both ends: for every
    commence timestamp that parses to an aware instant [t] and every
    window [(start, end)] that [football_week_window] produces,
    [within_window] returns a boolean, which is true exactly when
    [start <= t <= end]; a kick-off exactly at [end] is inside. *)
Theorem within_window_closed {host : Host} (now start end_ : datetime)
    (commence : string) (dt : datetime) (o : Z) :
  football_week_window now = Ok (start, end_) ->
  fromisoformat (replace_Z commence) = Some dt ->
  tzoffset dt = Some o ->
  exists b, within_window (PStr commence) start end_ = Ok b
            /\ (b = true <-> instant start <= instant dt <= instant end_)
            /\ (instant dt = instant end_ -> instant start <= instant end_ -> b = true).
Proof.
  intros Hw Hp Ho.
  destruct (football_week_window_aware _ _ _ Hw) as [Hs He].
  unfold within_window. rewrite Hp.
  rewrite (dt_le_aware _ _ _ _ Hs Ho). simpl.
  destruct (Z.leb_spec (instant start) (instant dt)) as [H1|H1].
  - rewrite (dt_le_aware _ _ _ _ Ho He).
    eexists. split; [reflexivity |].
    destruct (Z.leb_spec (instant dt) (instant end_)); split; try split;
      intros; try lia; try discriminate; reflexivity.
  - exists false. split; [reflexivity |]. split; [split |]; intros; try lia; discriminate.
Qed.

Lemma within_window_closed_witness :
  exists b, within_window (PStr fri_evening_iso) thu_start tue_end = Ok b
            /\ (b = true <-> instant thu_start <= instant (mkdt 738890 64800000000 (Some 0))
                                  <= instant tue_end)
            /\ (instant (mkdt 738890 64800000000 (Some 0)) = instant tue_end ->
                instant thu_start <= instant tue_end -> b = true).
Proof.
  apply (within_window_closed wed_noon thu_start tue_end fri_evening_iso _ 0);
    vm_compute; reflexivity.
Defined.

(** C3 as stated (the window is half-open) fails at the end of the
    window: the kick-off at Tuesday 2024-01-09 00:00 UTC, the [end] of the
    window of Wednesday 2024-01-03, is inside for [within_window], while
    [start <= t < end] does not hold. *)
Lemma within_window_includes_end :
  football_week_window wed_noon = Ok (thu_start, tue_end)
  /\ fromisoformat (replace_Z tue_midnight_iso) = Some tue_end
  /\ within_window (PStr tue_midnight_iso) thu_start tue_end = Ok true
  /\ ~ (instant thu_start <= instant tue_end < instant tue_end).
Proof.
  repeat split; try (vm_compute; reflexivity). lia.
Qed.

(** A timestamp without offset parses to a naive datetime, which cannot
    be ordered against the aware ends of the window. *)
Lemma within_window_naive {host : Host} (commence : string) (start end_ dt : datetime) (o : Z) :
  tzoffset start = Some o ->
  fromisoformat (replace_Z commence) = Some dt ->
  tzoffset dt = None ->
  within_window (PStr commence) start end_ = Raise TypeError.
Proof.
  intros Hs Hp Hn. unfold within_window. rewrite Hp.
  now rewrite (dt_le_mixed _ _ _ Hs Hn).
Qed.

(** C10.  [within_window] is not total on strings: on the well-formed
    timestamp 2024-01-04T12:00:00, which carries no offset, and the aware
    window of Wednesday 2024-01-03 it raises [TypeError] instead of
    returning a boolean. *)
Theorem within_window_naive_raises :
  fromisoformat (replace_Z naive_iso) = Some (mkdt 738889 43200000000 None)
  /\ football_week_window wed_noon = Ok (thu_start, tue_end)
  /\ within_window (PStr naive_iso) thu_start tue_end = Raise TypeError.
Proof. repeat split; vm_compute; reflexivity. Qed.

(** ** The date test of [/nfl/today] *)

Lemma utc_date_own_date dt o :
  tzoffset dt = Some o -> 0 <= usec dt - o < DAY -> utc_date dt = date dt.
Proof.
  intros Ho Hr. unfold utc_date, instant, wall, date. rewrite Ho.
  replace (ordinal dt * DAY + usec dt - o) with ((usec dt - o) + ordinal dt * DAY) by lia.
  rewrite Z.div_add by (pose proof DAY_pos; lia).
  rewrite Z.div_small by lia. lia.
Qed.

(** C9, as amended.  The today filter compares the calendar date that the
    timestamp shows on its own wall clock, in its own offset, with the
    reference UTC date: for every commence string the test returns a
    boolean without raising; a malformed timestamp does not match; a
    timestamp that parses matches exactly when its own date is the
    reference date, which is its UTC date whenever taking the offset off
    stays within the day, in particular for a zero offset (a "Z"
    suffix). *)
Theorem is_today_compares_own_date {host : Host} (commence : string) (today : Z) :
  exists b, is_today (PStr commence) today = Ok b
    /\ (fromisoformat (replace_Z commence) = None -> b = false)
    /\ (forall dt, fromisoformat (replace_Z commence) = Some dt ->
          (b = true <-> date dt = today)
          /\ (forall o, tzoffset dt = Some o -> 0 <= usec dt - o < DAY ->
                (b = true <-> utc_date dt = today))
          /\ (tzoffset dt = Some 0 -> 0 <= usec dt < DAY ->
                (b = true <-> utc_date dt = today))).
Proof.
  unfold is_today. destruct (fromisoformat (replace_Z commence)) as [dt|].
  - exists (date dt =? today). split; [reflexivity |]. split; [discriminate |].
    intros dt' [= <-].
    assert (Hb : (date dt =? today) = true <-> date dt = today) by apply Z.eqb_eq.
    split; [exact Hb |]. split.
    + intros o Ho Hr. now rewrite (utc_date_own_date dt o Ho Hr).
    + intros Ho Hr. rewrite (utc_date_own_date dt 0 Ho) by lia. exact Hb.
  - exists false. split; [reflexivity |]. split; [reflexivity |]. discriminate.
Qed.

(** C9 as stated (the dates are compared in UTC) fails for a timestamp
    with a non-zero offset: 2024-01-02T01:00:00+05:00 matches the
    reference date 2024-01-02 although its UTC date is 2024-01-01. *)
Lemma is_today_offset_not_utc :
  fromisoformat (replace_Z offset_iso) = Some (mkdt 738887 3600000000 (Some 18000000000))
  /\ is_today (PStr offset_iso) jan_2 = Ok true
  /\ utc_date (mkdt 738887 3600000000 (Some 18000000000)) = 738886
  /\ utc_date (mkdt 738887 3600000000 (Some 18000000000)) <> jan_2.
Proof. repeat split; try (vm_compute; reflexivity). vm_compute. discriminate. Qed.

(** ** The cache *)

Lemma wall_utc_of t : wall (utc_of t) = t.
Proof.
  unfold wall, utc_of. simpl.
  pose proof (Z.div_mod t DAY ltac:(pose proof DAY_pos; lia)). lia.
Qed.

Lemma dt_add_instant d td e :
  dt_add d td = Ok e -> tzoffset e = tzoffset d /\ wall e = wall d + td.
Proof.
  unfold dt_add. destruct (_ && _); [| discriminate].
  intros [= <-]. split; [reflexivity |]. unfold wall at 1. simpl.
  pose proof (Z.div_mod (wall d + td) DAY ltac:(pose proof DAY_pos; lia)). lia.
Qed.

Section CacheFacts.
Context {A : Type}.

Lemma cache_set_inv key (v : A) ttl w w1 :
  cache_set key v ttl w = (Ok tt, w1) ->
  exists e, dt_add (utc_of (clock w (ticks w))) (seconds ttl) = Ok e
            /\ w1 = mkworld (<[key := mkentry v e]> (cache w)) (clock w) (S (ticks w)).
Proof.
  unfold cache_set, sbind, now_utc, lift. simpl.
  destruct (dt_add _ _) as [e|]; [| discriminate].
  intros [= <-]. eauto.
Qed.

Lemma cache_get_stored key (v : A) e w :
  cache w !! key = Some (mkentry v e) -> tzoffset e = Some 0 ->
  cache_get key w
  = (Ok (if clock w (ticks w) <? instant e then Some v else None),
     mkworld (cache w) (clock w) (S (ticks w))).
Proof.
  intros Hl Hz. unfold cache_get. rewrite Hl.
  unfold sbind, now_utc, lift, ret, dt_lt. simpl. rewrite Hz.
  now rewrite instant_utc_of.
Qed.

End CacheFacts.

(** C7.  After [cache_set key v] with the 45 second TTL, made when the
    clock read [t0], the entry for [key] holds [v] and expires at
    [t0 + 45s].  As long as that entry is the one stored, a [cache_get]
    made when the clock reads [t] returns exactly [v] if [t] is strictly
    before the expiry and nothing otherwise, and in both cases leaves the
    entry stored; a later [cache_set] on the key overwrites it. *)
Theorem cache_get_iff_before_expiry {A : Type} (w w1 : world A) (key : string) (v : A) :
  cache_set key v CACHE_TTL_SECS w = (Ok tt, w1) ->
  let t0 := clock w (ticks w) in
  exists e,
    cache w1 !! key = Some (mkentry v e)
    /\ instant e = t0 + seconds 45
    /\ (forall w2 : world A, cache w2 !! key = Some (mkentry v e) ->
          let t := clock w2 (ticks w2) in
          (t < t0 + seconds 45 -> fst (cache_get key w2) = Ok (Some v))
          /\ (t0 + seconds 45 <= t -> fst (cache_get key w2) = Ok None)
          /\ (fst (cache_get key w2) = Ok (Some v) <-> t < instant e)
          /\ cache (snd (cache_get key w2)) !! key = Some (mkentry v e))
    /\ (forall (w2 w3 : world A) (v' : A),
          cache_set key v' CACHE_TTL_SECS w2 = (Ok tt, w3) ->
          exists e', cache w3 !! key = Some (mkentry v' e')).
Proof.
  intros Hset t0.
  destruct (cache_set_inv _ _ _ _ _ Hset) as (e & Hadd & ->).
  destruct (dt_add_instant _ _ _ Hadd) as [Htz Hwall].
  assert (Hz : tzoffset e = Some 0) by (rewrite Htz; reflexivity).
  assert (Hi : instant e = t0 + seconds 45).
  { unfold instant. rewrite Hz, Hwall, wall_utc_of. unfold CACHE_TTL_SECS. subst t0. lia. }
  exists e. split; [simpl; apply lookup_insert_eq |]. split; [exact Hi |]. split.
  - intros w2 Hl t. rewrite (cache_get_stored _ _ _ _ Hl Hz). simpl. fold t.
    rewrite Hi. destruct (Z.ltb_spec t (t0 + seconds 45)); repeat split;
      intros; try lia; try discriminate; try reflexivity; try assumption.
  - intros w2 w3 v' Hset'.
    destruct (cache_set_inv _ _ _ _ _ Hset') as (e' & _ & ->).
    exists e'. simpl. apply lookup_insert_eq.
Qed.

Lemma cache_get_iff_before_expiry_witness :
  exists e,
    cache (mkworld (<["nfl_weekend" := mkentry 7 (utc_of (start_clock 0 + seconds 45))]> ∅)
                   start_clock 1) !! "nfl_weekend" = Some (mkentry 7 e)
    /\ instant e = start_clock 0 + seconds 45
    /\ (forall w2 : world Z, cache w2 !! "nfl_weekend" = Some (mkentry 7 e) ->
          let t := clock w2 (ticks w2) in
          (t < start_clock 0 + seconds 45 -> fst (cache_get "nfl_weekend" w2) = Ok (Some 7))
          /\ (start_clock 0 + seconds 45 <= t -> fst (cache_get "nfl_weekend" w2) = Ok None)
          /\ (fst (cache_get "nfl_weekend" w2) = Ok (Some 7) <-> t < instant e)
          /\ cache (snd (cache_get "nfl_weekend" w2)) !! "nfl_weekend" = Some (mkentry 7 e))
    /\ (forall (w2 w3 : world Z) v',
          cache_set "nfl_weekend" v' CACHE_TTL_SECS w2 = (Ok tt, w3) ->
          exists e', cache w3 !! "nfl_weekend" = Some (mkentry v' e')).
Proof.
  apply (cache_get_iff_before_expiry (fresh_world Z) _ "nfl_weekend" 7).
  reflexivity.
Defined.

(** ** The bookmaker selector *)

Lemma py_eq_str_r k s : py_eq k (PStr s) = true <-> k = PStr s.
Proof.
  destruct k; simpl; try (split; [discriminate | discriminate]).
  rewrite String.eqb_eq. split; congruence.
Qed.

Lemma py_eq_str_l k s : py_eq (PStr s) k = true <-> k = PStr s.
Proof.
  destruct k; simpl; try (split; [discriminate | discriminate]).
  rewrite String.eqb_eq. split; congruence.
Qed.

Lemma field_is_get field name x k :
  py_get x field PNone = Ok k -> py_eq k (PStr name) = field_is field name x.
Proof.
  destruct x; simpl; try discriminate. intros [= <-].
  destruct (assoc field d) as [v|]; [| reflexivity].
  destruct v; reflexivity.
Qed.

Lemma dict_set_lookup d k v s :
  dict_lookup (dict_set d k v) (PStr s)
  = if py_eq k (PStr s) then Some v else dict_lookup d (PStr s).
Proof.
  induction d as [| [k' v'] r IH]; simpl.
  - reflexivity.
  - destruct (py_eq k' k) eqn:Ekk; simpl.
    + destruct (py_eq k (PStr s)) eqn:Ek.
      * apply py_eq_str_r in Ek. subst k. now rewrite Ekk.
      * destruct (py_eq k' (PStr s)) eqn:Ek'; [| reflexivity].
        apply py_eq_str_r in Ek'. subst k'.
        apply py_eq_str_l in Ekk. subst k.
        simpl in Ek. now rewrite String.eqb_refl in Ek.
    + rewrite IH. destruct (py_eq k' (PStr s)) eqn:Ek'; [| reflexivity].
      destruct (py_eq k (PStr s)) eqn:Ek; [| reflexivity].
      apply py_eq_str_r in Ek'. apply py_eq_str_r in Ek. subst.
      simpl in Ekk. now rewrite String.eqb_refl in Ekk.
Qed.

(** A comprehension keyed by [field] maps a string to the last item
    that carries it. *)
Lemma dict_by_lookup field items : forall acc d name,
  dict_by field items acc = Ok d ->
  dict_lookup d (PStr name)
  = match find_last (field_is field name) items with
    | Some x => Some x
    | None => dict_lookup acc (PStr name)
    end.
Proof.
  induction items as [| x r IH]; intros acc d name; simpl.
  - now intros [= <-].
  - destruct (py_get x field PNone) as [k|] eqn:Ek; simpl; [| discriminate].
    destruct (hashable k); [| discriminate].
    intros Hd. rewrite (IH _ _ name Hd).
    destruct (find_last (field_is field name) r); [reflexivity |].
    rewrite dict_set_lookup, (field_is_get _ name _ _ Ek).
    now destruct (field_is field name x).
Qed.

Lemma dict_by_keyed field items : forall acc,
  Forall (fun x => keyed field x = true) items ->
  exists d, dict_by field items acc = Ok d.
Proof.
  induction items as [| x r IH]; intros acc Hk; simpl.
  - eauto.
  - inversion Hk as [| ? ? Hx Hr]; subst. unfold keyed in Hx.
    destruct (py_get x field PNone) as [k|]; simpl; [| discriminate].
    rewrite Hx. now apply IH.
Qed.

(** The first element that cannot be keyed makes the comprehension
    raise: [AttributeError] when it is not a dict, [TypeError] when its
    key is a list or a dict. *)
Lemma dict_by_malformed field l1 x l2 : forall acc,
  Forall (fun y => keyed field y = true) l1 -> keyed field x = false ->
  dict_by field (l1 ++ x :: l2) acc
  = Raise (match x with PDict _ => TypeError | _ => AttributeError end).
Proof.
  induction l1 as [| y r IH]; intros acc Hk Hx; simpl.
  - unfold keyed in Hx. destruct x; try reflexivity.
    simpl in *. now rewrite Hx.
  - inversion Hk as [| ? ? Hy Hr]; subst. unfold keyed in Hy.
    destruct (py_get y field PNone) as [k|]; cbn [bind]; [| discriminate].
    rewrite Hy. now apply IH.
Qed.

Lemma find_last_None p l :
  find_last p l = None <-> Forall (fun x => p x = false) l.
Proof.
  induction l as [| x r IH]; simpl.
  - split; auto.
  - destruct (find_last p r) as [y|].
    + split; [discriminate |]. intros H. inversion H as [| ? ? _ Hr]; subst.
      apply IH in Hr. discriminate.
    + destruct (p x) eqn:Ex.
      * split; [discriminate |]. intros H. inversion H; congruence.
      * split; [| reflexivity]. intros _. constructor; [assumption | now apply IH].
Qed.

Lemma find_last_app p l1 b l2 :
  p b = true -> Forall (fun x => p x = false) l2 ->
  find_last p (l1 ++ b :: l2) = Some b.
Proof.
  intros Hb Hl2. induction l1 as [| x r IH]; simpl.
  - apply find_last_None in Hl2. now rewrite Hl2, Hb.
  - now rewrite IH.
Qed.

Lemma find_last_split p l b :
  find_last p l = Some b ->
  exists l1 l2, l = l1 ++ b :: l2 /\ p b = true /\ Forall (fun x => p x = false) l2.
Proof.
  induction l as [| x r IH]; simpl; [discriminate |].
  destruct (find_last p r) as [y|] eqn:Er.
  - intros [= <-]. destruct (IH eq_refl) as (l1 & l2 & -> & Hy & Hf).
    exists (x :: l1), l2. auto.
  - destruct (p x) eqn:Ex; [| discriminate]. intros [= <-].
    exists [], r. repeat split; [assumption | now apply find_last_None].
Qed.

Lemma find_last_Some p l b :
  find_last p l = Some b <->
  exists l1 l2, l = l1 ++ b :: l2 /\ p b = true /\ Forall (fun x => p x = false) l2.
Proof.
  split; [apply find_last_split |].
  intros (l1 & l2 & -> & Hb & Hf). now apply find_last_app.
Qed.

Lemma scan_priority_titles names d bs :
  (forall name, dict_lookup d (PStr name) = find_last (field_is "title" name) bs) ->
  scan_priority names d = scan_titles names bs.
Proof.
  intros H. induction names as [| n r IH]; simpl; [reflexivity |].
  rewrite H. now rewrite IH.
Qed.

Lemma scan_titles_first pre name post bs b :
  (forall n, In n pre -> find_last (field_is "title" n) bs = None) ->
  find_last (field_is "title" name) bs = Some b ->
  scan_titles (pre ++ name :: post) bs = Some b.
Proof.
  intros Hpre Hb. induction pre as [| n r IH]; simpl.
  - now rewrite Hb.
  - rewrite (Hpre n) by (now left). apply IH. intros; apply Hpre; now right.
Qed.

Lemma scan_titles_none names bs :
  (forall n, In n names -> find_last (field_is "title" n) bs = None) ->
  scan_titles names bs = None.
Proof.
  intros H. induction names as [| n r IH]; simpl; [reflexivity |].
  rewrite (H n) by (now left). apply IH. intros; apply H; now right.
Qed.

Lemma scan_titles_In names bs b : scan_titles names bs = Some b -> In b bs.
Proof.
  induction names as [| n r IH]; simpl; [discriminate |].
  destruct (find_last _ bs) as [y|] eqn:E; [| exact IH].
  intros [= <-]. apply find_last_Some in E as (l1 & l2 & -> & _).
  apply in_or_app. right. now left.
Qed.

Section ChooseBook.
Context {host : Host}.

(** On a non-empty list of keyed bookmakers [choose_book] is the scan
    of the priority list, with the first bookmaker as fallback. *)
Lemma choose_book_keyed b rest :
  Forall (fun x => keyed "title" x = true) (b :: rest) ->
  choose_book (PList (b :: rest))
  = Ok (match scan_titles BOOK_PRIORITY (b :: rest) with
        | Some x => x
        | None => b
        end).
Proof.
  intros Hk. unfold choose_book. cbn [truthy negb py_iter bind].
  destruct (dict_by_keyed "title" (b :: rest) [] Hk) as [d Hd].
  rewrite Hd. cbn [bind].
  rewrite (scan_priority_titles _ _ (b :: rest)).
  - now destruct (scan_titles BOOK_PRIORITY (b :: rest)).
  - intros name. rewrite (dict_by_lookup _ _ _ _ name Hd).
    now destruct (find_last _ _).
Qed.

End ChooseBook.

(** C5.  On every list of bookmakers (dicts, whose title may be
    missing), [choose_book] returns a value; it returns [None] exactly
    when the list is empty; otherwise, if [name] is the first title of
    the priority list DraftKings, FanDuel, BetMGM, Caesars,
    PointsBet (US), bet365 that some bookmaker carries, it returns the
    last bookmaker with that title, wherever it stands in the list; and
    if no bookmaker carries a title of the priority list it returns the
    first bookmaker of the list. *)
Theorem choose_book_priority {host : Host} (bs : list pyval) :
  Forall (fun x => keyed "title" x = true) bs ->
  (exists r, choose_book (PList bs) = Ok r)
  /\ (choose_book (PList bs) = Ok PNone <-> bs = [])
  /\ (forall pre name post l1 b l2,
        BOOK_PRIORITY = pre ++ name :: post ->
        (forall n x, In n pre -> In x bs -> field_is "title" n x = false) ->
        bs = l1 ++ b :: l2 ->
        field_is "title" name b = true ->
        (forall x, In x l2 -> field_is "title" name x = false) ->
        choose_book (PList bs) = Ok b)
  /\ (forall b rest,
        bs = b :: rest ->
        (forall n x, In n BOOK_PRIORITY -> In x bs -> field_is "title" n x = false) ->
        choose_book (PList bs) = Ok b).
Proof.
  intros Hk. destruct bs as [| b0 rest0].
  - split; [eexists; reflexivity |]. split; [split; reflexivity |]. split.
    + intros pre name post l1 b l2 _ _ H. now destruct l1.
    + discriminate.
  - rewrite (choose_book_keyed _ _ Hk). split; [eauto |]. split; [| split].
    + split; [| discriminate]. intros H. exfalso.
      pose proof (scan_titles_In BOOK_PRIORITY (b0 :: rest0)) as Hin.
      remember (scan_titles BOOK_PRIORITY (b0 :: rest0)) as st eqn:E. clear E.
      assert (Hnone : In PNone (b0 :: rest0)).
      { destruct st as [x|]; injection H as H; subst.
        - now apply Hin.
        - now left. }
      rewrite List.Forall_forall in Hk. specialize (Hk _ Hnone). discriminate.
    + intros pre name post l1 b l2 Hp Hpre Hbs Hb Hl2.
      rewrite Hp. erewrite scan_titles_first; [reflexivity | |].
      * intros n Hn. apply find_last_None, List.Forall_forall. intros x Hx. now apply Hpre.
      * apply find_last_Some. exists l1, l2. repeat split; try assumption.
        apply List.Forall_forall. exact Hl2.
    + intros b rest [= <- <-] Hno.
      rewrite scan_titles_none; [reflexivity |].
      intros n Hn. apply find_last_None, List.Forall_forall. intros x Hx. now apply Hno.
Qed.

Lemma choose_book_priority_witness :
  (exists r, choose_book (PList fanduel_draftkings) = Ok r)
  /\ (choose_book (PList fanduel_draftkings) = Ok PNone <-> fanduel_draftkings = [])
  /\ (forall pre name post l1 b l2,
        BOOK_PRIORITY = pre ++ name :: post ->
        (forall n x, In n pre -> In x fanduel_draftkings -> field_is "title" n x = false) ->
        fanduel_draftkings = l1 ++ b :: l2 ->
        field_is "title" name b = true ->
        (forall x, In x l2 -> field_is "title" name x = false) ->
        choose_book (PList fanduel_draftkings) = Ok b)
  /\ (forall b rest,
        fanduel_draftkings = b :: rest ->
        (forall n x, In n BOOK_PRIORITY -> In x fanduel_draftkings ->
                     field_is "title" n x = false) ->
        choose_book (PList fanduel_draftkings) = Ok b).
Proof.
  apply (choose_book_priority fanduel_draftkings).
  repeat constructor.
Defined.

(** The examples of the specification: priority beats input order, an
    unknown book is taken as it is, and no book gives [None]. *)
Example choose_book_examples :
  choose_book (PList fanduel_draftkings) = Ok (book "DraftKings")
  /\ choose_book (PList unknown_only) = Ok (book "Unknown Book")
  /\ choose_book (PList []) = Ok PNone.
Proof. repeat split; vm_compute; reflexivity. Qed.

(** ** The event normaliser *)

Lemma bind_Ok {A B : Type} (c : result A) (k : A -> result B) r :
  bind c k = Ok r -> exists a, c = Ok a /\ k a = Ok r.
Proof. destruct c; simpl; [eauto | discriminate]. Qed.

Lemma bind_opt_Some {A B : Type} (c : result (option A)) (k : A -> result (option B)) r :
  bind_opt c k = Ok (Some r) -> exists a, c = Ok (Some a) /\ k a = Ok (Some r).
Proof. destruct c as [[a|]|]; simpl; [eauto | discriminate | discriminate]. Qed.

Lemma float_lt_asym x y : float_lt x y = true -> float_lt y x = false.
Proof.
  unfold float_lt, float_compare.
  destruct x as [s1|s1| |s1 m1 e1], y as [s2|s2| |s2 m2 e2];
    try destruct s1; try destruct s2; try discriminate; try reflexivity.
  all: rewrite (Z.min_comm e2 e1), (Z.compare_antisym (scaled _ m1 e1 _));
    destruct (scaled _ m1 e1 _ ?= scaled _ m2 e2 _); simpl; congruence.
Qed.

Lemma float_eq_not_lt x y : float_eq x y = true -> float_lt x y = false.
Proof.
  unfold float_eq, float_lt. destruct (float_compare x y) as [[]|]; congruence.
Qed.

Section Normaliser.
Context {host : Host}.

Lemma first_outcome_first_match test items o :
  first_match test items o -> first_outcome test PNone items = Ok o.
Proof.
  intros (l1 & l2 & n & -> & Hl1 & Hn & Ht).
  induction Hl1 as [| x l1 (m & Hm & Hf) _ IH]; simpl.
  - rewrite Hn. cbn [bind]. now rewrite Ht.
  - rewrite Hm. cbn [bind]. now rewrite Hf.
Qed.

(** The spread of an event whose two sides resolve and have points. *)
Lemma map_spread_resolved home away markets outs items oh oa hp ap :
  market_outcomes markets "spreads" = Ok (Some outs) ->
  py_iter outs = Ok items ->
  first_outcome (names_side home "Home") PNone items = Ok oh ->
  first_outcome (names_side away "Away") PNone items = Ok oa ->
  truthy oh = true -> truthy oa = true ->
  point_of oh = Ok hp -> point_of oa = Ok ap ->
  map_spread home away markets
  = if float_lt hp ap then
      let* price := price_of oh in
      let* favorite := validate_str home in
      Ok (Some (Spread.make favorite (float_abs hp) price))
    else
      let* price := price_of oa in
      let* favorite := validate_str away in
      Ok (Some (Spread.make favorite (float_abs ap) price)).
Proof.
  intros Hm Hi Hh Ha Hth Hta Hhp Hap. unfold map_spread.
  rewrite Hm. cbn [bind_opt]. rewrite Hi. cbn [bind]. rewrite Hh. cbn [bind].
  rewrite Ha. cbn [bind]. rewrite Hth, Hta. cbn [negb orb].
  unfold point_of in Hhp, Hap.
  destruct (py_get oh "point" PNone) as [hv|]; [| discriminate]. cbn [bind] in *.
  rewrite Hhp. cbn [bind].
  destruct (py_get oa "point" PNone) as [av|]; [| discriminate]. cbn [bind] in *.
  rewrite Hap. cbn [bind].
  unfold price_of.
  destruct (float_lt hp ap).
  - destruct (py_get oh "price" PNone); reflexivity.
  - destruct (py_get oa "price" PNone); reflexivity.
Qed.

(** A game carries the moneyline, the spread and the total that the
    three parts of [map_event_to_game] compute, and the three strings of
    the event. *)
Lemma map_event_to_game_Some ev book g :
  map_event_to_game ev book = Ok (Some g) ->
  exists home away markets,
    py_get ev "home_team" PNone = Ok home
    /\ py_get ev "away_team" PNone = Ok away
    /\ book_markets book = Ok markets
    /\ map_moneyline home away markets = Ok (Some (Game.moneyline g))
    /\ map_spread home away markets = Ok (Some (Game.spread g))
    /\ map_total markets = Ok (Some (Game.total g))
    /\ Game.week g = 1
    /\ py_get ev "commence_time" PNone = Ok (PStr (Game.kickoff_iso g))
    /\ home = PStr (Game.home g)
    /\ away = PStr (Game.away g).
Proof.
  unfold map_event_to_game, book_markets. intros H.
  apply bind_Ok in H as (home & Hh & H).
  apply bind_Ok in H as (away & Ha & H).
  apply bind_Ok in H as (ko & Hk & H).
  apply bind_Ok in H as (ms & Hms & H).
  apply bind_Ok in H as (items & Hit & H).
  apply bind_Ok in H as (markets & Hmk & H).
  apply bind_opt_Some in H as (ml & Hml & H).
  apply bind_opt_Some in H as (sp & Hsp & H).
  apply bind_opt_Some in H as (tt & Htt & H).
  apply bind_Ok in H as (k & Hvk & H).
  apply bind_Ok in H as (h & Hvh & H).
  apply bind_Ok in H as (a & Hva & H).
  injection H as <-.
  exists home, away, markets. rewrite Hms. cbn [bind]. rewrite Hit. cbn [bind].
  destruct ko; try discriminate. destruct home; try discriminate.
  destruct away; try discriminate. simpl in Hvk, Hvh, Hva.
  injection Hvk as <-. injection Hvh as <-. injection Hva as <-.
  simpl. repeat split; assumption.
Qed.

(** The game that [map_event_to_game] builds once the three markets
    have each returned their part and the event carries three strings. *)
Lemma map_event_to_game_built ev book markets k h a ml sp t :
  py_get ev "home_team" PNone = Ok (PStr h) ->
  py_get ev "away_team" PNone = Ok (PStr a) ->
  py_get ev "commence_time" PNone = Ok (PStr k) ->
  book_markets book = Ok markets ->
  map_moneyline (PStr h) (PStr a) markets = Ok (Some ml) ->
  map_spread (PStr h) (PStr a) markets = Ok (Some sp) ->
  map_total markets = Ok (Some t) ->
  map_event_to_game ev book = Ok (Some (Game.make 1 k h a ml sp t)).
Proof.
  intros Hh Ha Hk Hmk Hml Hsp Ht. unfold book_markets in Hmk.
  apply bind_Ok in Hmk as (ms & Hms & Hmk).
  apply bind_Ok in Hmk as (items & Hit & Hmk).
  unfold map_event_to_game. rewrite Hh, Ha, Hk. cbn [bind].
  rewrite Hms. cbn [bind]. rewrite Hit. cbn [bind]. rewrite Hmk. cbn [bind].
  rewrite Hml. cbn [bind_opt]. rewrite Hsp. cbn [bind_opt]. rewrite Ht. reflexivity.
Qed.

End Normaliser.

(** C1.  Take an event and a bookmaker whose spreads market has a first
    outcome [oh] named as the home team or "Home" and a first outcome
    [oa] named as the away team or "Away", with points [hp] and [ap].
    Whenever [map_event_to_game] returns a game, its spread has as
    favorite the side whose point is numerically smaller, as line the
    absolute value of that side's point and as price that side's price:
    the home side when [hp < ap], the away side when [ap < hp] and when
    the two points are equal.  And the spread is produced: with
    [hp < ap] (resp. otherwise), a home (resp. away) team name that
    is a string and a price that [american_int] accepts, the spread part
    returns that spread; and the game is returned with it: when moreover
    the moneyline and the total parts return theirs and the event's
    commence_time is a string, [map_event_to_game] returns the game
    made of the event's three strings, that moneyline, that spread and
    that total. *)
Theorem spread_favorite_smaller_point {host : Host}
    (ev book home away : pyval) (markets : pydict) (outs : pyval)
    (items : list pyval) (oh oa : pyval) (hp ap : spec_float) :
  py_get ev "home_team" PNone = Ok home ->
  py_get ev "away_team" PNone = Ok away ->
  book_markets book = Ok markets ->
  market_outcomes markets "spreads" = Ok (Some outs) ->
  py_iter outs = Ok items ->
  first_match (names_side home "Home") items oh -> truthy oh = true ->
  first_match (names_side away "Away") items oa -> truthy oa = true ->
  point_of oh = Ok hp -> point_of oa = Ok ap ->
  (forall g, map_event_to_game ev book = Ok (Some g) ->
     let s := Game.spread g in
     (float_lt hp ap = true ->
        PStr (Spread.favorite s) = home /\ Spread.line s = float_abs hp
        /\ price_of oh = Ok (Spread.price s))
     /\ (float_lt ap hp = true ->
        PStr (Spread.favorite s) = away /\ Spread.line s = float_abs ap
        /\ price_of oa = Ok (Spread.price s))
     /\ (float_eq hp ap = true ->
        PStr (Spread.favorite s) = away /\ Spread.line s = float_abs ap
        /\ price_of oa = Ok (Spread.price s)))
  /\ (forall f p, float_lt hp ap = true -> home = PStr f -> price_of oh = Ok p ->
        map_spread home away markets = Ok (Some (Spread.make f (float_abs hp) p)))
  /\ (forall f p, float_lt hp ap = false -> away = PStr f -> price_of oa = Ok p ->
        map_spread home away markets = Ok (Some (Spread.make f (float_abs ap) p)))
  /\ (forall k h a ml t p,
        home = PStr h -> away = PStr a ->
        py_get ev "commence_time" PNone = Ok (PStr k) ->
        map_moneyline home away markets = Ok (Some ml) ->
        map_total markets = Ok (Some t) ->
        (float_lt hp ap = true -> price_of oh = Ok p ->
           map_event_to_game ev book
           = Ok (Some (Game.make 1 k h a ml (Spread.make h (float_abs hp) p) t)))
        /\ (float_lt hp ap = false -> price_of oa = Ok p ->
           map_event_to_game ev book
           = Ok (Some (Game.make 1 k h a ml (Spread.make a (float_abs ap) p) t)))).
Proof.
  intros Hh Ha Hmk Hm Hi Hfh Hth Hfa Hta Hhp Hap.
  pose proof (map_spread_resolved home away markets outs items oh oa hp ap Hm Hi
                (first_outcome_first_match _ _ _ Hfh)
                (first_outcome_first_match _ _ _ Hfa) Hth Hta Hhp Hap) as Hsp.
  split; [| split; [| split]].
  - intros g Hg s.
    destruct (map_event_to_game_Some _ _ _ Hg)
      as (home' & away' & markets' & Hh' & Ha' & Hmk' & _ & Hs & _ & _ & _ & Hhome & Haway).
    assert (E1 : home' = home) by congruence.
    assert (E2 : away' = away) by congruence.
    assert (E3 : markets' = markets) by congruence.
    rewrite E1 in Hs, Hhome. rewrite E2 in Hs, Haway. rewrite E3 in Hs.
    clear E1 E2 E3 Hh' Ha' Hmk'.
    fold s in Hs. rewrite Hsp in Hs.
    assert (Hhome_case : float_lt hp ap = true ->
              PStr (Spread.favorite s) = home /\ Spread.line s = float_abs hp
              /\ price_of oh = Ok (Spread.price s)).
    { intros E. rewrite E in Hs.
      destruct (price_of oh) as [p|]; [| discriminate]. cbn [bind] in Hs.
      rewrite Hhome in Hs. simpl in Hs. injection Hs as <-. simpl. now rewrite Hhome. }
    assert (Haway_case : float_lt hp ap = false ->
              PStr (Spread.favorite s) = away /\ Spread.line s = float_abs ap
              /\ price_of oa = Ok (Spread.price s)).
    { intros E. rewrite E in Hs.
      destruct (price_of oa) as [p|]; [| discriminate]. cbn [bind] in Hs.
      rewrite Haway in Hs. simpl in Hs. injection Hs as <-. simpl. now rewrite Haway. }
    split; [exact Hhome_case |]. split.
    + intros E. apply Haway_case. now apply float_lt_asym.
    + intros E. apply Haway_case. now apply float_eq_not_lt.
  - intros f p E -> Hp. rewrite Hsp, E, Hp. reflexivity.
  - intros f p E -> Hp. rewrite Hsp, E, Hp. reflexivity.
  - intros k h a ml t p Eh Ea Hk Hml Ht. subst home away. split.
    + intros E Hp. apply (map_event_to_game_built ev book markets); try assumption.
      rewrite Hsp, E, Hp. reflexivity.
    + intros E Hp. apply (map_event_to_game_built ev book markets); try assumption.
      rewrite Hsp, E, Hp. reflexivity.
Qed.

Lemma spread_favorite_smaller_point_witness :
  map_event_to_game good_event good_book = Ok (Some good_game)
  /\ PStr (Spread.favorite (Game.spread good_game)) = PStr "A"
  /\ Spread.line (Game.spread good_game) = float_abs minus_3_5
  /\ price_of (outcome_at "A" (-110) minus_3_5) = Ok (Spread.price (Game.spread good_game)).
Proof.
  destruct (spread_favorite_smaller_point good_event good_book (PStr "A") (PStr "B")
           [(PStr "h2h", h2h_AB); (PStr "spreads", spreads_AB); (PStr "totals", totals_AB)]
           (PList [outcome_at "A" (-110) minus_3_5; outcome_at "B" (-110) plus_3_5])
           [outcome_at "A" (-110) minus_3_5; outcome_at "B" (-110) plus_3_5]
           (outcome_at "A" (-110) minus_3_5) (outcome_at "B" (-110) plus_3_5)
           minus_3_5 plus_3_5) as (Hfav & _ & _ & Hgame); try reflexivity.
  - exists [], [outcome_at "B" (-110) plus_3_5], (PStr "A").
    repeat split; constructor.
  - exists [outcome_at "A" (-110) minus_3_5], [], (PStr "B").
    repeat split. constructor; [| constructor]. exists (PStr "A"). split; reflexivity.
  - assert (Hret : map_event_to_game good_event good_book = Ok (Some good_game)).
    { apply (proj1 (Hgame fri_evening_iso "A" "B" (Moneyline.make (-150) 130)
                      (Total.make f_48_5 (-105) (-115)) (-110)
                      eq_refl eq_refl eq_refl eq_refl eq_refl)); reflexivity. }
    split; [exact Hret |]. apply (Hfav good_game Hret). reflexivity.
Defined.

(** The well-formed event of the specification, and the same spreads
    with equal points: the away team is the favorite on a tie. *)
Example map_event_to_game_examples :
  map_event_to_game good_event good_book = Ok (Some good_game)
  /\ map_spread (PStr "A") (PStr "B")
       [(PStr "spreads",
         market "spreads" [outcome_at "A" (-110) plus_3_5; outcome_at "B" (-120) plus_3_5])]
     = Ok (Some (Spread.make "B" plus_3_5 (-120))).
Proof. split; vm_compute; reflexivity. Qed.

(** *** Missing markets *)

Lemma field_is_truthy field name x :
  field_is field name x = true -> truthy x = true /\ exists d, x = PDict d.
Proof.
  destruct x; simpl; try discriminate.
  destruct d as [| kv d]; simpl; [discriminate |]. eauto.
Qed.

Lemma dict_get_by_key items markets key :
  dict_by "key" items [] = Ok markets ->
  dict_get markets (PStr key)
  = Ok (match find_last (field_is "key" key) items with
        | Some m => m
        | None => PNone
        end).
Proof.
  intros Hd. unfold dict_get. simpl hashable. cbv iota.
  rewrite (dict_by_lookup _ _ _ _ key Hd). simpl.
  now destruct (find_last _ _).
Qed.

Section Markets.
Context {host : Host}.

Lemma market_outcomes_missing items markets key :
  dict_by "key" items [] = Ok markets ->
  market_missing key items = true ->
  market_outcomes markets key = Ok None.
Proof.
  intros Hd. unfold market_missing, market_outcomes.
  rewrite (dict_get_by_key _ _ key Hd). cbn [bind].
  destruct (find_last _ _) as [m|] eqn:E; [| reflexivity].
  apply find_last_split in E as (_ & _ & _ & Hm & _).
  destruct (field_is_truthy _ _ _ Hm) as [-> [d ->]]. cbn [negb py_get bind].
  now intros ->.
Qed.

Lemma market_outcomes_present items markets key outs :
  dict_by "key" items [] = Ok markets ->
  market_outcomes markets key = Ok (Some outs) ->
  market_missing key items = false.
Proof.
  intros Hd. unfold market_missing, market_outcomes.
  rewrite (dict_get_by_key _ _ key Hd). cbn [bind].
  destruct (find_last _ _) as [m|] eqn:E; [| discriminate].
  apply find_last_split in E as (_ & _ & _ & Hm & _).
  destruct (field_is_truthy _ _ _ Hm) as [-> [d ->]]. cbn [negb py_get bind].
  destruct (negb _); [discriminate | reflexivity].
Qed.

End Markets.

(** C2, as amended.  [map_event_to_game] never returns a game when one of
    the markets h2h, spreads, totals is absent from the bookmaker's
    markets (the last market wins among those with the same key) or has
    an empty outcomes list, and a game it returns has every field
    populated: week 1, the three strings of the event, the moneyline,
    the spread and the total.  For an event that is a dict and a
    bookmaker whose markets can be iterated and are all dicts with a
    hashable (or missing) key: with h2h missing it returns none; with
    spreads missing it returns none unless the moneyline part raised;
    with totals missing it returns none unless the moneyline or the
    spread part raised.  On any other input it raises: [AttributeError]
    when the event is not a dict, and otherwise the exception of
    building the markets by key, which is [AttributeError] for a market
    that is not a dict and [TypeError] for one whose key is a list or a
    dict. *)
Theorem map_event_to_game_needs_all_markets {host : Host} (ev book : pyval) :
  (forall g, map_event_to_game ev book = Ok (Some g) ->
     exists ms items,
       py_get book "markets" (PList []) = Ok ms /\ py_iter ms = Ok items
       /\ market_missing "h2h" items = false
       /\ market_missing "spreads" items = false
       /\ market_missing "totals" items = false
       /\ Game.week g = 1
       /\ py_get ev "commence_time" PNone = Ok (PStr (Game.kickoff_iso g))
       /\ py_get ev "home_team" PNone = Ok (PStr (Game.home g))
       /\ py_get ev "away_team" PNone = Ok (PStr (Game.away g)))
  /\ (forall d ms items,
        ev = PDict d ->
        py_get book "markets" (PList []) = Ok ms -> py_iter ms = Ok items ->
        Forall (fun m => keyed "key" m = true) items ->
        exists markets,
          book_markets book = Ok markets
          /\ let home := match assoc "home_team" d with Some v => v | None => PNone end in
             let away := match assoc "away_team" d with Some v => v | None => PNone end in
             (market_missing "h2h" items = true -> map_event_to_game ev book = Ok None)
             /\ (market_missing "spreads" items = true ->
                 ~ raises (map_moneyline home away markets) ->
                 map_event_to_game ev book = Ok None)
             /\ (market_missing "totals" items = true ->
                 ~ raises (map_moneyline home away markets) ->
                 ~ raises (map_spread home away markets) ->
                 map_event_to_game ev book = Ok None))
  /\ ((forall d, ev <> PDict d) -> map_event_to_game ev book = Raise AttributeError)
  /\ (forall d x, ev = PDict d -> book_markets book = Raise x ->
        map_event_to_game ev book = Raise x)
  /\ (forall ms l1 m l2,
        py_get book "markets" (PList []) = Ok ms -> py_iter ms = Ok (l1 ++ m :: l2) ->
        Forall (fun y => keyed "key" y = true) l1 -> keyed "key" m = false ->
        book_markets book
        = Raise (match m with PDict _ => TypeError | _ => AttributeError end)).
Proof.
  split; [| split; [| split; [| split]]].
  - intros g Hg.
    destruct (map_event_to_game_Some _ _ _ Hg)
      as (home & away & markets & Hh & Ha & Hmk & Hml & Hsp & Htt & Hw & Hk & -> & ->).
    unfold book_markets in Hmk.
    apply bind_Ok in Hmk as (ms & Hms & Hmk).
    apply bind_Ok in Hmk as (items & Hit & Hmk).
    exists ms, items.
    unfold map_moneyline in Hml. apply bind_opt_Some in Hml as (o1 & Ho1 & _).
    unfold map_spread in Hsp. apply bind_opt_Some in Hsp as (o2 & Ho2 & _).
    unfold map_total in Htt. apply bind_opt_Some in Htt as (o3 & Ho3 & _).
    repeat split; try assumption; eapply market_outcomes_present; eauto.
  - intros d ms items -> Hms Hit Hkeyed.
    destruct (dict_by_keyed "key" items [] Hkeyed) as [markets Hmk].
    exists markets. split.
    { unfold book_markets. rewrite Hms. cbn [bind]. rewrite Hit. exact Hmk. }
    intros home away.
    unfold map_event_to_game. cbn [py_get bind]. fold home away.
    rewrite Hms. cbn [bind]. rewrite Hit. cbn [bind]. rewrite Hmk. cbn [bind].
    split; [| split].
    + intros Hmiss. unfold map_moneyline.
      now rewrite (market_outcomes_missing _ _ _ Hmk Hmiss).
    + intros Hmiss Hml.
      destruct (map_moneyline home away markets) as [[ml|]|e]; cbn [bind_opt];
        [| reflexivity | exfalso; apply Hml; now exists e].
      unfold map_spread. now rewrite (market_outcomes_missing _ _ _ Hmk Hmiss).
    + intros Hmiss Hml Hsp.
      destruct (map_moneyline home away markets) as [[ml|]|e]; cbn [bind_opt];
        [| reflexivity | exfalso; apply Hml; now exists e].
      destruct (map_spread home away markets) as [[sp|]|e]; cbn [bind_opt];
        [| reflexivity | exfalso; apply Hsp; now exists e].
      unfold map_total. now rewrite (market_outcomes_missing _ _ _ Hmk Hmiss).
  - intros Hnd. destruct ev; try reflexivity. now destruct (Hnd d).
  - intros d x -> Hbm. unfold book_markets in Hbm.
    unfold map_event_to_game. cbn [py_get bind].
    destruct (py_get book "markets" (PList [])) as [ms|]; cbn [bind] in *;
      [| now injection Hbm as ->].
    destruct (py_iter ms) as [items|]; cbn [bind] in *; [| now injection Hbm as ->].
    now rewrite Hbm.
  - intros ms l1 m l2 Hms Hit Hl1 Hm. unfold book_markets.
    rewrite Hms. cbn [bind]. rewrite Hit. cbn [bind].
    exact (dict_by_malformed "key" l1 m l2 [] Hl1 Hm).
Qed.

Lemma map_event_to_game_needs_all_markets_witness :
  map_event_to_game good_event book_h2h_only = Ok None
  /\ map_event_to_game good_event (PDict [("markets", PList [PInt 5])])
     = Raise AttributeError.
Proof.
  pose proof (map_event_to_game_needs_all_markets good_event book_h2h_only)
    as (_ & Hnone & _).
  pose proof (map_event_to_game_needs_all_markets good_event
                (PDict [("markets", PList [PInt 5])]))
    as (_ & _ & _ & Hraise & Hbad).
  split.
  - destruct (Hnone _ (PList [h2h_AB]) [h2h_AB] eq_refl eq_refl eq_refl)
      as (markets & Hbm & _ & Hspreads & _).
    + repeat constructor.
    + vm_compute in Hbm. injection Hbm as <-.
      apply Hspreads; [reflexivity |].
      intros [e He]. vm_compute in He. discriminate.
  - apply (Hraise _ AttributeError eq_refl).
    apply (Hbad (PList [PInt 5]) [] (PInt 5) [] eq_refl eq_refl);
      [constructor | reflexivity].
Defined.

(** C2 as stated fails when an earlier market raises before the missing
    one is looked at: a bookmaker with a moneyline, spreads without
    points and no totals makes [map_event_to_game] raise [TypeError]
    (from [float(None)]) instead of returning none. *)
Lemma map_event_to_game_missing_totals_raises :
  market_missing "totals" [h2h_AB; spreads_no_point] = true
  /\ map_event_to_game good_event book_no_totals = Raise TypeError
  /\ map_event_to_game good_event book_no_totals <> Ok None.
Proof. repeat split; try (vm_compute; reflexivity). vm_compute. discriminate. Qed.

(** ** The loops of the handlers *)

Section Loops.
Context {host : Host}.

Lemma collect_Ok body evs : forall acc gs,
  collect body evs acc = Ok gs -> gs = acc ++ kept body evs.
Proof.
  induction evs as [| ev r IH]; intros acc gs; simpl.
  - intros [= <-]. now rewrite app_nil_r.
  - destruct (body ev) as [[g|]|]; cbn [bind]; try discriminate; intros H;
      apply IH in H; subst; simpl; now rewrite <- ?app_assoc.
Qed.

Lemma collect_all_ok body evs : forall acc,
  (forall ev, In ev evs -> exists r, body ev = Ok r) ->
  collect body evs acc = Ok (acc ++ kept body evs).
Proof.
  induction evs as [| ev r IH]; intros acc Hok; simpl.
  - now rewrite app_nil_r.
  - destruct (Hok ev (or_introl eq_refl)) as [m Hm]. rewrite Hm. cbn [bind].
    rewrite IH by (intros; apply Hok; now right).
    destruct m; simpl; now rewrite <- ?app_assoc.
Qed.

Lemma collect_first_raise body pre ev post e : forall acc,
  (forall x, In x pre -> exists r, body x = Ok r) ->
  body ev = Raise e ->
  collect body (pre ++ ev :: post) acc = Raise e.
Proof.
  induction pre as [| x r IH]; intros acc Hok He; simpl.
  - now rewrite He.
  - destruct (Hok x (or_introl eq_refl)) as [m Hm]. rewrite Hm. cbn [bind].
    apply IH; [| assumption]. intros; apply Hok; now right.
Qed.

Lemma kept_length body evs : (length (kept body evs) <= length evs)%nat.
Proof.
  induction evs as [| ev r IH]; simpl; [lia |].
  destruct (body ev) as [[g|]|]; simpl; lia.
Qed.

Lemma cache_get_absent {A : Type} key (w : world A) :
  cache w !! key = None -> cache_get key w = (Ok None, w).
Proof. intros H. unfold cache_get. now rewrite H. Qed.

(** An exception of the loop is the outcome of the request. *)
Lemma weekend_raises key sport sport_key e (w : world GamesResponse) raw x :
  cache w !! key = None ->
  SPORTS sport = Some sport_key ->
  fetch_odds e sport_key = Ok raw ->
  weekend_games (utc_of (clock w (ticks w))) raw = Raise x ->
  fst (weekend key sport e w) = Raise x.
Proof.
  intros Hc Hs Hf Hg. unfold weekend, sbind.
  rewrite (cache_get_absent _ _ Hc). rewrite Hs. unfold lift at 1. cbn [of_option].
  rewrite Hf. unfold lift at 1. unfold now_utc at 1. cbn [clock ticks cache].
  rewrite Hg. reflexivity.
Qed.

End Loops.

(** C6, as amended.  In the loop of the weekend handlers an event whose
    normalisation returns none is left out and the other events are
    still normalised and returned, in order; but the loop handles no
    exception: the first event whose normalisation raises (a price that
    [american_int] cannot coerce, a missing or non-numeric point, ...)
    ends the loop with that exception, and the request with it. *)
Theorem weekend_loop_skips_none_propagates_raise {host : Host}
    (now start end_ : datetime) (evs : list pyval) :
  football_week_window now = Ok (start, end_) ->
  ((forall ev, In ev evs -> exists r, weekend_body start end_ ev = Ok r) ->
     weekend_games now (PList evs) = Ok (kept (weekend_body start end_) evs))
  /\ (forall pre ev post x,
        evs = pre ++ ev :: post ->
        (forall y, In y pre -> exists r, weekend_body start end_ y = Ok r) ->
        weekend_body start end_ ev = Raise x ->
        weekend_games now (PList evs) = Raise x
        /\ forall e (w : world GamesResponse),
             cache w !! "nfl_weekend" = None ->
             fetch_odds e "americanfootball_nfl" = Ok (PList evs) ->
             utc_of (clock w (ticks w)) = now ->
             fst (nfl_weekend e w) = Raise x).
Proof.
  intros Hw.
  assert (Hgames : weekend_games now (PList evs) = collect (weekend_body start end_) evs []).
  { unfold weekend_games. rewrite Hw. reflexivity. }
  split.
  - intros Hok. rewrite Hgames. now rewrite collect_all_ok.
  - intros pre ev post x -> Hpre Hx.
    assert (Hr : weekend_games now (PList (pre ++ ev :: post)) = Raise x).
    { rewrite Hgames. now apply collect_first_raise. }
    split; [exact Hr |].
    intros e w Hc Hf Hnow. unfold nfl_weekend.
    eapply weekend_raises; eauto. now rewrite Hnow.
Qed.

Lemma weekend_loop_skips_none_propagates_raise_witness :
  weekend_games wed_noon (PList [event_with fri_evening_iso [book_h2h_only]; good_event])
  = Ok [good_game].
Proof.
  refine (proj1 (weekend_loop_skips_none_propagates_raise wed_noon thu_start tue_end
                   [event_with fri_evening_iso [book_h2h_only]; good_event] eq_refl) _).
  intros ev [<- | [<- | []]]; eexists; vm_compute; reflexivity.
Defined.

(** C6 as stated fails: an event whose spreads carry no point, or whose
    price is not a number, is not silently excluded.  Each raises out of
    the loop, and the request for the two events [bad_event; good_event]
    fails with [TypeError] although [good_event] alone is returned as a
    game. *)
Lemma weekend_request_aborted_by_one_event :
  american_int (PStr "n/a") = Raise ValueError
  /\ weekend_body thu_start tue_end bad_price_event = Raise ValueError
  /\ weekend_body thu_start tue_end bad_event = Raise TypeError
  /\ weekend_games wed_noon (PList [good_event]) = Ok [good_game]
  /\ weekend_games wed_noon (PList [bad_event; good_event]) = Raise TypeError
  /\ fst (nfl_weekend (provider (PList [bad_event; good_event])) (fresh_world GamesResponse))
     = Raise TypeError.
Proof. repeat split; vm_compute; reflexivity. Qed.

(** ** The fallback of [/nfl/today] *)





Section Sorting.
Context {host : Host}.

Lemma insert_by_key_perm x l : Permutation (x :: l) (insert_by_key x l).
Proof.
  induction l as [| y r IH]; simpl; [reflexivity |].
  destruct (str_lt (fst x) (fst y)); [reflexivity |].
  rewrite perm_swap. now constructor.
Qed.


Lemma sort_fold_perm l : forall acc,
  Permutation (l ++ acc) (fold_left (fun a x => insert_by_key x a) l acc).
Proof.
  induction l as [| x r IH]; intros acc; simpl; [reflexivity |].
  rewrite <- IH. rewrite <- insert_by_key_perm. apply Permutation_middle.
Qed.


Lemma sort_by_key_perm l : Permutation l (sort_by_key l).
Proof. unfold sort_by_key. rewrite <- sort_fold_perm. now rewrite app_nil_r. Qed.







(** Only string keys reach the sort: once the date loop of [nfl_today]
    has run through the events, every commence_time is a string. *)
Lemma today_loop_keys_are_strings today evs : forall acc gs,
  collect (today_body today) evs acc = Ok gs ->
  exists ks, commence_keys evs = Ok ks.
Proof.
  induction evs as [| ev r IH]; intros acc gs; simpl; [eauto |].
  unfold today_body at 1.
  destruct (py_get ev "commence_time" (PStr "")) as [ct|]; cbn [bind]; [| discriminate].
  destruct ct; simpl; try discriminate.
  intros H. apply bind_Ok in H as (m & _ & H).
  destruct (IH _ _ H) as [ks ->]. simpl. eauto.
Qed.






End Sorting.




(** The request on an empty upstream result. *)
Example nfl_today_empty_upstream :
  fst (nfl_today (provider (PList [])) (fresh_world GamesResponse))
  = Ok (mkresp (utc_of (start_clock 1)) []).
Proof. vm_compute. reflexivity. Qed.

(** ** The fetcher *)

(** The statuses of [fetch_odds]: 500 without API key, 503 on an
    upstream 429, 502 on any other status than 200, and the parsed
    document on 200. *)
Example fetch_odds_statuses :
  fetch_odds no_key "americanfootball_nfl" = Raise (HTTPException 500)
  /\ fetch_odds (answering 429) "americanfootball_nfl" = Raise (HTTPException 503)
  /\ fetch_odds (answering 404) "americanfootball_nfl" = Raise (HTTPException 502)
  /\ fetch_odds (provider (PList [good_event])) "americanfootball_nfl"
     = Ok (PList [good_event]).
Proof. repeat split; reflexivity. Qed.

(** * Further properties *)

(** ** Odds coercion *)
Lemma digits2_pos_size m : digits2_pos m = Pos.size m.
Proof. induction m; simpl; congruence. Qed.

Lemma iter_xO_pos m k : Z.pos (Pos.iter xO m k) = Z.pos m * 2 ^ Z.pos k.
Proof.
  revert m. induction k using Pos.peano_ind; intros m.
  - simpl. lia.
  - rewrite Pos.iter_succ. rewrite Pos2Z.inj_xO, IHk, Pos2Z.inj_succ, Z.pow_succ_r by lia. lia.
Qed.

Lemma digits2_iter_xO m k : digits2_pos (Pos.iter xO m k) = (digits2_pos m + k)%positive.
Proof.
  induction k using Pos.peano_ind.
  - simpl. lia.
  - rewrite Pos.iter_succ. simpl. rewrite IHk. lia.
Qed.

Lemma fexp_53 d : -1021 <= d -> fexp prec emax d = d - 53.
Proof. intros. unfold fexp, emin, prec, emax. lia. Qed.

Lemma binary_round_aux_exact s mz ez :
  Z.pos (digits2_pos mz) = 53 -> -1074 <= ez <= 971 ->
  binary_round_aux prec emax s (Z.pos mz) ez loc_Exact = S754_finite s mz ez.
Proof.
  intros Hd He. unfold binary_round_aux, shr_fexp.
  cbn [Zdigits2 shr_record_of_loc]. rewrite Hd, fexp_53 by lia.
  replace (53 + ez - 53 - ez) with 0 by lia. cbn [shr shr_m loc_of_shr_record round_nearest_even].
  cbn [Zdigits2]. rewrite Hd, fexp_53 by lia.
  replace (53 + ez - 53 - ez) with 0 by lia. cbn [shr shr_m shr_record_of_loc].
  unfold emax, prec. destruct (Z.leb_spec ez (1024 - 53)); [reflexivity | lia].
Qed.

Lemma binary_round_small s m :
  Z.pos (digits2_pos m) <= 53 ->
  exists mz ez, binary_round prec emax s m 0 = S754_finite s mz ez
                /\ ez <= 0 /\ Z.pos mz = Z.pos m * 2 ^ (- ez).
Proof.
  intros Hd. unfold binary_round. rewrite fexp_53 by lia.
  unfold shl_align.
  destruct (Z.pos (digits2_pos m) + 0 - 53 - 0) as [| p | p] eqn:E; try lia.
  - exists m, 0. rewrite binary_round_aux_exact by lia. split; [reflexivity |]. simpl. lia.
  - exists (Pos.iter xO m p), (Z.pos (digits2_pos m) + 0 - 53).
    rewrite binary_round_aux_exact.
    + split; [reflexivity |]. split; [lia |]. rewrite iter_xO_pos. f_equal. f_equal. lia.
    + rewrite digits2_iter_xO. lia.
    + lia.
Qed.
Lemma digits2_pos_log2 m : Z.pos (digits2_pos m) = Z.log2 (Z.pos m) + 1.
Proof. rewrite digits2_pos_size. destruct m; simpl; lia. Qed.

Lemma digits2_pos_53 m : Z.pos m < 2 ^ 53 -> Z.pos (digits2_pos m) <= 53.
Proof.
  intros H. rewrite digits2_pos_log2.
  apply Z.log2_lt_pow2 in H; lia.
Qed.

Lemma int_of_float_scaled s mz ez m :
  ez <= 0 -> Z.pos mz = Z.pos m * 2 ^ (- ez) ->
  int_of_float (S754_finite s mz ez) = Ok (cond_Zopp s (Z.pos m)).
Proof.
  intros He Hm. unfold int_of_float. do 2 f_equal.
  destruct (Z.leb_spec 0 ez).
  - assert (ez = 0) by lia. subst. simpl in Hm. lia.
  - rewrite Hm. apply Z.div_mul. apply Z.pow_nonzero; lia.
Qed.

Section Coercion.
Context {host : Host}.

Lemma american_int_small n : Z.abs n < 2 ^ 53 -> american_int (PInt n) = Ok n.
Proof.
  intros Hn. unfold american_int, py_float, float_of_int, float_of_Z, binary_normalize.
  destruct n as [| m | m].
  - reflexivity.
  - destruct (binary_round_small false m (digits2_pos_53 m Hn)) as (mz & ez & -> & He & Hm).
    cbn [bind]. now rewrite (int_of_float_scaled _ _ _ m He Hm).
  - destruct (binary_round_small true m (digits2_pos_53 m Hn)) as (mz & ez & -> & He & Hm).
    cbn [bind]. now rewrite (int_of_float_scaled _ _ _ m He Hm).
Qed.

End Coercion.

(** X1.  [american_int] is the identity on every int of at most 53 bits:
    the detour through [float] loses nothing below 2^53, so integer odds
    come back unchanged. *)
Theorem american_int_exact_below_2_53 {host : Host} (n : Z) :
  Z.abs n < 2 ^ 53 -> american_int (PInt n) = Ok n.
Proof. apply american_int_small. Qed.

Lemma american_int_exact_below_2_53_witness : american_int (PInt (-110)) = Ok (-110).
Proof. apply (american_int_exact_below_2_53 (-110)). reflexivity. Defined.

(** X2.  [american_int] never raises on an int or a bool.  An int too
    large for a float comes back unchanged through the fallback [int(x)];
    above 2^53 the result may differ from the int, as for 2^53 + 1, which
    comes back as 2^53. *)
Theorem american_int_total_on_ints {host : Host} :
  (forall n, exists r, american_int (PInt n) = Ok r
                       /\ (forall e, float_of_int n = Raise e -> r = n))
  /\ (forall b, american_int (PBool b) = Ok (if b then 1 else 0))
  /\ american_int (PInt (2 ^ 53 + 1)) = Ok (2 ^ 53)
  /\ american_int (PInt (2 ^ 1024)) = Ok (2 ^ 1024).
Proof.
  split; [| split; [| split]].
  - intros n. unfold american_int, py_float.
    destruct (float_of_int n) as [f|e] eqn:E; cbn [bind].
    + destruct (int_of_float f) as [r|e'].
      * exists r. split; [reflexivity | discriminate].
      * exists n. split; [reflexivity | reflexivity].
    + exists n. split; reflexivity.
  - intros []; reflexivity.
  - vm_compute. reflexivity.
  - vm_compute. reflexivity.
Qed.

(** X3.  What [american_int] cannot coerce raises the exception of the
    fallback [int(x)]: [TypeError] for [None], a list or a dict,
    [ValueError] for a NaN and for a string that neither [float] nor
    [int] parses, [OverflowError] for an infinity. *)
Theorem american_int_errors {host : Host} :
  american_int PNone = Raise TypeError
  /\ (forall l, american_int (PList l) = Raise TypeError)
  /\ (forall d, american_int (PDict d) = Raise TypeError)
  /\ american_int (PFloat S754_nan) = Raise ValueError
  /\ (forall s, american_int (PFloat (S754_infinity s)) = Raise OverflowError)
  /\ (forall s, float_of_str s = None -> int_of_str s = None ->
                american_int (PStr s) = Raise ValueError).
Proof.
  repeat split; try reflexivity.
  intros s Hf Hi. unfold american_int, py_float, py_int. now rewrite Hf, Hi.
Qed.

Lemma american_int_errors_witness : american_int (PStr "n/a") = Raise ValueError.
Proof. apply (american_int_errors (host := cpython)); reflexivity. Defined.

(** X4.  On a finite float [american_int] truncates towards zero: the
    result has the sign of the float and the largest magnitude [q] with
    [q <= m * 2^e]. *)
Theorem american_int_truncates {host : Host} (s : bool) (m : positive) (e : Z) :
  exists q, american_int (PFloat (S754_finite s m e)) = Ok (cond_Zopp s q)
            /\ 0 <= q
            /\ (0 <= e -> q = Z.pos m * 2 ^ e)
            /\ (e < 0 -> q * 2 ^ (- e) <= Z.pos m < (q + 1) * 2 ^ (- e)).
Proof.
  unfold american_int, py_float. cbn [bind int_of_float].
  eexists. split; [reflexivity |].
  destruct (Z.leb_spec 0 e) as [He|He].
  - split; [| split; [reflexivity | lia]].
    apply Z.mul_nonneg_nonneg; [lia | apply Z.pow_nonneg; lia].
  - assert (Hp : 0 < 2 ^ (- e)) by (apply Z.pow_pos_nonneg; lia).
    pose proof (Z.div_mod (Z.pos m) (2 ^ (- e)) ltac:(lia)) as Hdm.
    pose proof (Z.mod_pos_bound (Z.pos m) (2 ^ (- e)) Hp) as Hb.
    split; [apply Z.div_pos; lia |]. split; [lia |]. intros _. nia.
Qed.

(** ** The week window *)

Lemma dt_add_in_range d td :
  DAY <= wall d + td < (MAXORDINAL + 1) * DAY ->
  dt_add d td = Ok (mkdt ((wall d + td) / DAY) ((wall d + td) mod DAY) (tzoffset d)).
Proof.
  intros H. unfold dt_add.
  assert (1 <= (wall d + td) / DAY) by (apply Z.div_le_lower_bound; pose proof DAY_pos; lia).
  assert ((wall d + td) / DAY < MAXORDINAL + 1)
    by (apply Z.div_lt_upper_bound; pose proof DAY_pos; lia).
  destruct (Z.ltb_spec 0 ((wall d + td) / DAY)); [| lia].
  destruct (Z.leb_spec ((wall d + td) / DAY) MAXORDINAL); [| lia].
  reflexivity.
Qed.

Section WindowMore.
Context {host : Host}.

(** The Monday of the week of [now], at midnight, from which the window
    is computed. *)
Lemma week_monday now :
  valid_dt now ->
  dt_add now (- days (weekday now))
  = Ok (mkdt (ordinal now - weekday now) (usec now) (tzoffset now)).
Proof.
  intros [Ho Hu].
  pose proof (weekday_range now). pose proof (weekday_le_ordinal now ltac:(lia)).
  replace (- days (weekday now)) with (days (- weekday now)) by (unfold days; lia).
  rewrite dt_add_days by lia. reflexivity.
Qed.

Lemma football_week_window_from_monday now :
  valid_dt now ->
  football_week_window now
  = let monday := mkdt (ordinal now - weekday now) 0 (tzoffset now) in
    let* thursday := dt_add monday (days 3) in
    let* tuesday_next := dt_add monday (days 8) in
    let* start := astimezone_utc thursday in
    let* end_ := astimezone_utc tuesday_next in
    Ok (start, end_).
Proof.
  intros Hv. unfold football_week_window. rewrite (week_monday now Hv). reflexivity.
Qed.

Lemma astimezone_utc_instant d o :
  tzoffset d = Some o ->
  DAY <= wall d - o < (MAXORDINAL + 1) * DAY ->
  exists u, astimezone_utc d = Ok u /\ tzoffset u = Some 0 /\ instant u = instant d.
Proof.
  intros Ho Hr. unfold astimezone_utc. rewrite Ho.
  destruct (Z.eqb_spec o 0) as [-> | Hne].
  - exists d. repeat split; assumption.
  - replace (wall d - o) with (wall d + - o) in Hr by lia.
    rewrite (dt_add_in_range d (- o) Hr). cbn [bind ordinal usec].
    eexists. split; [reflexivity |]. split; [reflexivity |].
    unfold instant, wall. cbn [ordinal usec tzoffset]. rewrite Ho.
    pose proof (Z.div_mod (wall d + - o) DAY ltac:(pose proof DAY_pos; lia)).
    unfold wall in *. lia.
Qed.

End WindowMore.

(** X5.  The window depends only on the Monday-to-Sunday week of [now]:
    two datetimes of the same week with the same tzinfo get the same
    window (or the same exception), whatever their day and time. *)
Theorem football_week_window_same_week {host : Host} (now1 now2 : datetime) :
  valid_dt now1 -> valid_dt now2 ->
  tzoffset now1 = tzoffset now2 ->
  ordinal now1 - weekday now1 = ordinal now2 - weekday now2 ->
  football_week_window now1 = football_week_window now2.
Proof.
  intros H1 H2 Htz Hm.
  rewrite (football_week_window_from_monday now1 H1),
          (football_week_window_from_monday now2 H2).
  now rewrite Htz, Hm.
Qed.

Lemma football_week_window_same_week_witness :
  football_week_window wed_noon = football_week_window (mkdt 738892 0 (Some 0)).
Proof.
  apply (football_week_window_same_week wed_noon (mkdt 738892 0 (Some 0)));
    try reflexivity; unfold valid_dt, MAXORDINAL, DAY; simpl; lia.
Defined.

(** X6.  For a UTC instant [now] the window ends after [now], and it has
    already started exactly from Thursday on: on a Monday, Tuesday or
    Wednesday the whole window lies ahead of [now]. *)
Theorem football_week_window_contains_now {host : Host} (now start end_ : datetime) :
  tzoffset now = Some 0 -> valid_dt now ->
  football_week_window now = Ok (start, end_) ->
  instant now < instant end_
  /\ (instant start <= instant now <-> 3 <= weekday now).
Proof.
  intros Htz Hv Hw. pose proof Hv as [Ho Hu].
  pose proof (weekday_range now) as Hwd.
  assert (Hmax : ordinal now - weekday now + 8 <= MAXORDINAL).
  { rewrite (football_week_window_from_monday now Hv) in Hw. cbv zeta in Hw.
    destruct (dt_add _ (days 3)); [| discriminate]. cbn [bind] in Hw.
    destruct (Z.le_gt_cases (ordinal now - weekday now + 8) MAXORDINAL) as [|Hgt];
      [assumption |].
    rewrite dt_add_days_overflow in Hw by (simpl; pose proof DAY_pos; lia).
    discriminate. }
  rewrite (football_week_window_utc now Htz Hv Hmax) in Hw. injection Hw as <- <-.
  unfold instant, wall. cbn [ordinal usec tzoffset]. rewrite Htz.
  pose proof DAY_pos. split; [nia |]. split; intros; nia.
Qed.

Lemma football_week_window_contains_now_witness :
  instant wed_noon < instant tue_end
  /\ (instant thu_start <= instant wed_noon <-> 3 <= weekday wed_noon).
Proof.
  apply (football_week_window_contains_now wed_noon thu_start tue_end);
    try reflexivity. unfold valid_dt, MAXORDINAL, DAY; simpl; lia.
Defined.

(** X7.  For a [now] whose tzinfo is a fixed UTC offset [o] (a
    [datetime.timezone], not a zone with daylight saving) the window is
    that of [now]'s own wall clock, expressed in UTC: its start is the
    instant of 00:00 at offset [o] on the Thursday of the week of
    [now]'s local date, its end is 5 days later, and both are UTC
    datetimes. *)
Theorem football_week_window_offset {host : Host} (now : datetime) (o : Z) :
  tzoffset now = Some o -> - DAY < o < DAY -> valid_dt now ->
  ordinal now - weekday now + 8 <= MAXORDINAL ->
  exists start end_,
    football_week_window now = Ok (start, end_)
    /\ tzoffset start = Some 0 /\ tzoffset end_ = Some 0
    /\ instant start = instant (mkdt (ordinal now - weekday now + 3) 0 (Some o))
    /\ instant end_ = instant start + days 5.
Proof.
  intros Htz Ho Hv Hmax. pose proof Hv as [Hord Hu].
  pose proof (weekday_range now) as Hwd.
  pose proof (weekday_le_ordinal now ltac:(lia)) as Hle.
  pose proof DAY_pos as HD.
  rewrite (football_week_window_from_monday now Hv). cbv zeta.
  rewrite !dt_add_days by (simpl; lia). cbn [bind ordinal usec tzoffset].
  rewrite Htz.
  destruct (astimezone_utc_instant (mkdt (ordinal now - weekday now + 3) 0 (Some o)) o)
    as (s & Hs & Hsz & Hsi); [reflexivity | unfold wall; simpl; unfold MAXORDINAL in *; nia |].
  destruct (astimezone_utc_instant (mkdt (ordinal now - weekday now + 8) 0 (Some o)) o)
    as (e & He & Hez & Hei); [reflexivity | unfold wall; simpl; unfold MAXORDINAL in *; nia |].
  rewrite Hs, He. cbn [bind]. exists s, e.
  repeat split; try assumption. rewrite Hei, Hsi.
  unfold instant, wall, days. simpl. lia.
Qed.

Lemma football_week_window_offset_witness :
  exists start end_,
    football_week_window (mkdt 738888 43200000000 (Some 18000000000)) = Ok (start, end_)
    /\ tzoffset start = Some 0 /\ tzoffset end_ = Some 0
    /\ instant start = instant (mkdt (738888 - 2 + 3) 0 (Some 18000000000))
    /\ instant end_ = instant start + days 5.
Proof.
  apply (football_week_window_offset (mkdt 738888 43200000000 (Some 18000000000))
           18000000000); try reflexivity.
  - unfold DAY. lia.
  - unfold valid_dt, MAXORDINAL, DAY; simpl; lia.
  - vm_compute. discriminate.
Defined.

(** ** The routes and the cache *)

Section RouteFacts.
Context {host : Host}.

Lemma cache_get_cases key (w : world GamesResponse) :
  (cache w !! key = None /\ cache_get key w = (Ok None, w))
  \/ (exists en, cache w !! key = Some en
        /\ cache_get key w
           = (let* fresh := dt_lt (utc_of (clock w (ticks w))) (exp en) in
              Ok (if fresh then Some (data en) else None), tick 1 w)).
Proof.
  unfold cache_get. destruct (cache w !! key) as [en|]; [right | left; auto].
  exists en. split; [reflexivity |].
  unfold sbind, now_utc, lift, ret, tick. cbn [cache clock ticks].
  destruct (dt_lt _ _); reflexivity.
Qed.

Lemma cache_get_frame key (w : world GamesResponse) :
  cache (snd (cache_get key w)) = cache w
  /\ clock (snd (cache_get key w)) = clock w.
Proof.
  destruct (cache_get_cases key w) as [[_ ->] | (en & _ & ->)]; auto.
Qed.

Lemma cache_get_aware key d ex o (w : world GamesResponse) :
  cache w !! key = Some (mkentry d ex) -> tzoffset ex = Some o ->
  cache_get key w
  = (Ok (if clock w (ticks w) <? instant ex then Some d else None), tick 1 w).
Proof.
  intros Hl Hz. destruct (cache_get_cases key w) as [[Hn _] | (en & Hen & ->)];
    [congruence |].
  rewrite Hl in Hen. injection Hen as <-. cbn [exp data].
  unfold dt_lt. cbn [utc_of tzoffset]. rewrite Hz. cbn [bind].
  now rewrite instant_utc_of.
Qed.

Lemma cache_get_Some key d (w w1 : world GamesResponse) :
  cache_get key w = (Ok (Some d), w1) ->
  exists ex o, cache w !! key = Some (mkentry d ex) /\ tzoffset ex = Some o
    /\ clock w (ticks w) < instant ex /\ w1 = tick 1 w.
Proof.
  destruct (cache_get_cases key w) as [[_ ->] | ([d' ex] & Hen & ->)];
    [discriminate |].
  cbn [exp data]. unfold dt_lt. cbn [utc_of tzoffset].
  destruct (tzoffset ex) as [o|] eqn:Hz; [| discriminate].
  cbn [bind]. fold (utc_of (clock w (ticks w))). rewrite instant_utc_of.
  destruct (Z.ltb_spec (clock w (ticks w)) (instant ex)); [| discriminate].
  intros [= <- <-]. exists ex, o. auto.
Qed.

Lemma serve_miss_eq games_of key sk e (w : world GamesResponse) :
  serve_miss games_of key sk e w
  = match fetch_odds e sk with
    | Raise x => (Raise x, w)
    | Ok raw =>
        match games_of (utc_of (clock w (ticks w))) raw with
        | Raise x => (Raise x, tick 1 w)
        | Ok gs =>
            let d := mkresp (utc_of (clock w (S (ticks w)))) gs in
            match dt_add (utc_of (clock w (S (S (ticks w))))) (seconds CACHE_TTL_SECS) with
            | Raise x => (Raise x, tick 3 w)
            | Ok ex =>
                (Ok d, mkworld (<[key := mkentry d ex]> (cache w)) (clock w)
                         (3 + ticks w)%nat)
            end
        end
    end.
Proof.
  unfold serve_miss, sbind, lift. destruct (fetch_odds e sk) as [raw|x]; [| reflexivity].
  unfold now_utc at 1. cbn [clock ticks cache].
  destruct (games_of _ raw) as [gs|x]; [| reflexivity].
  unfold now_utc at 1. cbn [clock ticks cache].
  unfold cache_set, sbind, now_utc, lift, ret. cbn [clock ticks cache].
  destruct (dt_add _ _); reflexivity.
Qed.

(** Every route first consults the cache under its own key and
    otherwise serves the miss for its own sport. *)
Lemma route_shape key sk (h : route) :
  In (key, sk, h) routes ->
  exists games_of, forall e w,
    h e w = match cache_get key w with
            | (Ok (Some d), w1) => (Ok d, w1)
            | (Ok None, w1) => serve_miss games_of key sk e w1
            | (Raise x, w1) => (Raise x, w1)
            end.
Proof.
  intros [[= <- <- <-] | [[= <- <- <-] | [[= <- <- <-] | []]]].
  - exists weekend_games. intros e w.
    unfold nfl_weekend, weekend, sbind. destruct (cache_get _ w) as [[[d|]|x] w1]; reflexivity.
  - exists (fun now raw => today_games (date now) raw). intros e w.
    unfold nfl_today, sbind. destruct (cache_get _ w) as [[[d|]|x] w1]; reflexivity.
  - exists weekend_games. intros e w.
    unfold cfb_weekend, weekend, sbind. destruct (cache_get _ w) as [[[d|]|x] w1]; reflexivity.
Qed.

Lemma serve_miss_frame games_of key sk e (w : world GamesResponse) :
  clock (snd (serve_miss games_of key sk e w)) = clock w
  /\ (forall k, k <> key -> cache (snd (serve_miss games_of key sk e w)) !! k = cache w !! k)
  /\ (forall x, fst (serve_miss games_of key sk e w) = Raise x ->
        cache (snd (serve_miss games_of key sk e w)) = cache w).
Proof.
  rewrite serve_miss_eq.
  destruct (fetch_odds e sk); [| auto].
  destruct (games_of _ _); [| auto]. cbv zeta.
  destruct (dt_add _ _); [| auto]. cbn [fst snd cache clock].
  repeat split; [| discriminate]. intros k Hk. now apply lookup_insert_ne.
Qed.

Lemma route_frame key sk (h : route) e (w : world GamesResponse) :
  In (key, sk, h) routes ->
  clock (snd (h e w)) = clock w
  /\ (forall k, k <> key -> cache (snd (h e w)) !! k = cache w !! k)
  /\ (forall x, fst (h e w) = Raise x -> cache (snd (h e w)) = cache w).
Proof.
  intros Hin. destruct (route_shape _ _ _ Hin) as [g Hh]. rewrite Hh.
  pose proof (cache_get_frame key w) as [Hc Hk].
  destruct (cache_get key w) as [[[d|]|x] w1]; cbn [fst snd] in *.
  - rewrite Hc, Hk. repeat split; auto.
  - destruct (serve_miss_frame g key sk e w1) as (H1 & H2 & H3).
    rewrite H1, Hk. split; [reflexivity |]. split.
    + intros k Hne. now rewrite H2, Hc.
    + intros x Hx. now rewrite (H3 x Hx), Hc.
  - rewrite Hc, Hk. repeat split; auto.
Qed.

End RouteFacts.

(** X8.  A cache hit is served without the provider: when the entry
    under a route's key has an aware expiry that the clock has not
    reached, the route returns the stored payload whatever the
    environment (no API key, provider down), reads the clock once and
    leaves the cache as it is. *)
Theorem routes_serve_cached {host : Host} key sk (h : route) (e : env)
    (w : world GamesResponse) (d : GamesResponse) (ex : datetime) (o : Z) :
  In (key, sk, h) routes ->
  cache w !! key = Some (mkentry d ex) -> tzoffset ex = Some o ->
  clock w (ticks w) < instant ex ->
  h e w = (Ok d, tick 1 w).
Proof.
  intros Hin Hl Hz Hlt. destruct (route_shape _ _ _ Hin) as [g ->].
  rewrite (cache_get_aware _ _ _ _ _ Hl Hz).
  destruct (Z.ltb_spec (clock w (ticks w)) (instant ex)); [reflexivity | lia].
Qed.

Lemma routes_serve_cached_witness :
  nfl_today no_key stored_world = (Ok (mkresp wed_noon [good_game]), tick 1 stored_world).
Proof.
  apply (routes_serve_cached "nfl_today" "americanfootball_nfl" nfl_today no_key
           stored_world (mkresp wed_noon [good_game]) tue_end 0).
  - right; left; reflexivity.
  - reflexivity.
  - reflexivity.
  - vm_compute. reflexivity.
Defined.

(** X9.  A request that fails stores nothing: whenever a route raises
    (no API key, provider error, an event that cannot be normalised, an
    expiry beyond the calendar), the cache is exactly what it was
    before the request. *)
Theorem routes_failure_stores_nothing {host : Host} key sk (h : route) (e : env)
    (w : world GamesResponse) (x : exn) :
  In (key, sk, h) routes ->
  fst (h e w) = Raise x ->
  cache (snd (h e w)) = cache w.
Proof.
  intros Hin Hx. destruct (route_frame key sk h e w Hin) as (_ & _ & H).
  exact (H x Hx).
Qed.

Lemma routes_failure_stores_nothing_witness :
  cache (snd (cfb_weekend (provider (PList [bad_event])) stored_world)) = cache stored_world.
Proof.
  apply (routes_failure_stores_nothing "cfb_weekend" "americanfootball_ncaaf" cfb_weekend
           (provider (PList [bad_event])) stored_world TypeError).
  - right; right; left; reflexivity.
  - vm_compute. reflexivity.
Defined.

(** X10.  A route writes under its own cache key only: the entries of
    all other keys are the same after the request as before, whatever
    its outcome. *)
Theorem routes_write_own_key_only {host : Host} key sk (h : route) (e : env)
    (w : world GamesResponse) (k : string) :
  In (key, sk, h) routes -> k <> key ->
  cache (snd (h e w)) !! k = cache w !! k.
Proof.
  intros Hin Hne. destruct (route_frame key sk h e w Hin) as (_ & H & _).
  exact (H k Hne).
Qed.

Lemma routes_write_own_key_only_witness :
  cache (snd (nfl_weekend (provider (PList [good_event])) stored_world)) !! "nfl_today"
  = cache stored_world !! "nfl_today".
Proof.
  apply (routes_write_own_key_only "nfl_weekend" "americanfootball_nfl" nfl_weekend
           (provider (PList [good_event])) stored_world "nfl_today").
  - left; reflexivity.
  - discriminate.
Defined.

Section RouteInvariant.
Context {host : Host}.

Lemma routes_keys key sk (h : route) : In (key, sk, h) routes -> In key cache_keys.
Proof.
  intros [[= <- <- <-] | [[= <- <- <-] | [[= <- <- <-] | []]]]; simpl; auto.
Qed.

Lemma cache_inv_get key (w : world GamesResponse) :
  cache_inv w -> exists r, fst (cache_get key w) = Ok r.
Proof.
  intros Hinv. destruct (cache_get_cases key w) as [[_ ->] | (en & Hen & ->)];
    [eexists; reflexivity |].
  destruct (Hinv _ _ Hen) as [_ Hz]. unfold dt_lt. cbn [utc_of tzoffset].
  rewrite Hz. eexists; reflexivity.
Qed.

Lemma cache_inv_tick n (w : world GamesResponse) : cache_inv w -> cache_inv (tick n w).
Proof. exact (fun H => H). Qed.

Lemma serve_miss_inv games_of key sk e (w : world GamesResponse) :
  In key cache_keys -> cache_inv w -> cache_inv (snd (serve_miss games_of key sk e w)).
Proof.
  intros Hk Hinv. rewrite serve_miss_eq.
  destruct (fetch_odds e sk); [| exact Hinv].
  destruct (games_of _ _); [| exact Hinv]. cbv zeta.
  destruct (dt_add _ _) as [ex|] eqn:Hadd; [| exact Hinv].
  destruct (dt_add_instant _ _ _ Hadd) as [Hz _].
  intros k en. cbn [snd cache]. destruct (decide (k = key)) as [-> | Hne].
  - rewrite lookup_insert_eq. intros [= <-]. split; assumption.
  - rewrite lookup_insert_ne by congruence. apply Hinv.
Qed.

Lemma route_inv key sk (h : route) e (w : world GamesResponse) :
  In (key, sk, h) routes -> cache_inv w -> cache_inv (snd (h e w)).
Proof.
  intros Hin Hinv. destruct (route_shape _ _ _ Hin) as [g ->].
  pose proof (routes_keys _ _ _ Hin) as Hk.
  destruct (cache_get_cases key w) as [[_ ->] | (en & _ & ->)].
  - now apply serve_miss_inv.
  - destruct (dt_lt _ _) as [[|]|]; cbn [bind snd];
      try exact Hinv. apply serve_miss_inv; [assumption | exact Hinv].
Qed.

Lemma serve_all_inv reqs : forall w : world GamesResponse,
  Forall (fun r => exists key sk, In (key, sk, fst r) routes) reqs ->
  cache_inv w -> cache_inv (serve_all reqs w).
Proof.
  induction reqs as [| [h e] reqs IH]; intros w Hall Hinv; [exact Hinv |].
  inversion Hall as [| ? ? (key & sk & Hin) Hrest]; subst.
  apply IH; [assumption |]. exact (route_inv key sk h e w Hin Hinv).
Qed.

End RouteInvariant.

(** X11.  Every successful response is the payload cached under the
    route's key when the request ends, with an aware expiry, and it is
    what any request to that route gets as long as the entry stays and
    the clock reads less than the expiry, whatever the provider does in
    the meantime.  When the request was not itself served from the
    cache, the expiry is 45 seconds after the last clock reading of
    the request. *)
Theorem routes_response_replayed {host : Host} key sk (h : route) (e : env)
    (w w1 : world GamesResponse) (d : GamesResponse) :
  In (key, sk, h) routes ->
  h e w = (Ok d, w1) ->
  exists ex o,
    cache w1 !! key = Some (mkentry d ex) /\ tzoffset ex = Some o
    /\ (fst (cache_get key w) = Ok None ->
          instant ex = clock w (pred (ticks w1)) + seconds CACHE_TTL_SECS)
    /\ (forall e' w2, cache w2 !! key = Some (mkentry d ex) ->
          clock w2 (ticks w2) < instant ex ->
          h e' w2 = (Ok d, tick 1 w2)).
Proof.
  intros Hin Hr. destruct (route_shape _ _ _ Hin) as [g Hh].
  assert (Hreplay : forall ex o e' w2, tzoffset ex = Some o ->
            cache w2 !! key = Some (mkentry d ex) ->
            clock w2 (ticks w2) < instant ex -> h e' w2 = (Ok d, tick 1 w2)).
  { intros ex o e' w2 Hz Hl Hlt. rewrite Hh, (cache_get_aware _ _ _ _ _ Hl Hz).
    destruct (Z.ltb_spec (clock w2 (ticks w2)) (instant ex)); [reflexivity | lia]. }
  rewrite Hh in Hr. pose proof (cache_get_frame key w) as [_ Hk].
  destruct (cache_get key w) as [[[d'|]|x] w'] eqn:Hg; [| | discriminate].
  - injection Hr as <- <-.
    destruct (cache_get_Some _ _ _ _ Hg) as (ex & o & Hl & Hz & Hlt & ->).
    exists ex, o. split; [exact Hl |]. split; [exact Hz |].
    split; [discriminate |]. intros e' w2. apply (Hreplay ex o e' w2 Hz).
  - cbn [snd] in Hk. rewrite serve_miss_eq in Hr.
    destruct (fetch_odds e sk); [| discriminate].
    destruct (g _ _); [| discriminate]. cbv zeta in Hr.
    destruct (dt_add _ _) as [ex|] eqn:Hadd; [| discriminate].
    injection Hr as <- <-.
    destruct (dt_add_instant _ _ _ Hadd) as [Hz Hw].
    exists ex, 0. split; [cbn [cache]; apply lookup_insert_eq |].
    split; [exact Hz |]. split.
    + intros _. unfold instant. rewrite Hw, wall_utc_of. cbn [tzoffset utc_of] in Hz.
      rewrite Hz. cbn [ticks Nat.add pred]. rewrite Hk. lia.
    + intros e' w2. apply (Hreplay ex 0 e' w2 Hz).
Qed.

Lemma routes_response_replayed_witness :
  exists ex o,
    cache (snd (nfl_weekend (provider (PList [good_event])) (fresh_world GamesResponse)))
      !! "nfl_weekend" = Some (mkentry (mkresp (utc_of (start_clock 1)) [good_game]) ex)
    /\ tzoffset ex = Some o
    /\ (fst (cache_get "nfl_weekend" (fresh_world GamesResponse)) = Ok None ->
          instant ex
          = clock (fresh_world GamesResponse)
              (pred (ticks (snd (nfl_weekend (provider (PList [good_event]))
                                   (fresh_world GamesResponse)))))
            + seconds CACHE_TTL_SECS)
    /\ (forall e' w2,
          cache w2 !! "nfl_weekend"
          = Some (mkentry (mkresp (utc_of (start_clock 1)) [good_game]) ex) ->
          clock w2 (ticks w2) < instant ex ->
          nfl_weekend e' w2
          = (Ok (mkresp (utc_of (start_clock 1)) [good_game]), tick 1 w2)).
Proof.
  apply (routes_response_replayed "nfl_weekend" "americanfootball_nfl" nfl_weekend
           (provider (PList [good_event])) (fresh_world GamesResponse)).
  - left; reflexivity.
  - rewrite (surjective_pairing (nfl_weekend _ _)) at 1.
    apply (f_equal2 pair); [vm_compute; reflexivity | reflexivity].
Defined.

(** X12.  Starting from the empty cache and serving any sequence of
    requests to the three routes one after another, under any
    environments and whatever their outcomes, the cache only ever holds
    entries under the three route keys, each with an aware UTC expiry;
    so in every state reached [cache_get] returns and never raises on
    the comparison with the expiry. *)
Theorem cache_stays_well_formed {host : Host} (reqs : list (route * env))
    (w : world GamesResponse) :
  cache w = ∅ ->
  Forall (fun r => exists key sk, In (key, sk, fst r) routes) reqs ->
  cache_inv (serve_all reqs w)
  /\ forall key, exists r, fst (cache_get key (serve_all reqs w)) = Ok r.
Proof.
  intros Hempty Hall.
  assert (Hinv : cache_inv (serve_all reqs w)).
  { apply serve_all_inv; [assumption |]. intros k en. rewrite Hempty, lookup_empty.
    discriminate. }
  split; [exact Hinv |]. intros key. now apply cache_inv_get.
Qed.

Lemma cache_stays_well_formed_witness :
  cache_inv (serve_all [(nfl_weekend, provider (PList [good_event]));
                        (nfl_today, no_key);
                        (cfb_weekend, provider (PList [bad_event]))]
               (fresh_world GamesResponse))
  /\ forall key, exists r,
       fst (cache_get key
              (serve_all [(nfl_weekend, provider (PList [good_event]));
                          (nfl_today, no_key);
                          (cfb_weekend, provider (PList [bad_event]))]
                 (fresh_world GamesResponse))) = Ok r.
Proof.
  apply (cache_stays_well_formed
           [(nfl_weekend, provider (PList [good_event]));
            (nfl_today, no_key);
            (cfb_weekend, provider (PList [bad_event]))]
           (fresh_world GamesResponse)).
  - reflexivity.
  - repeat constructor.
    + exists "nfl_weekend", "americanfootball_nfl". left; reflexivity.
    + exists "nfl_today", "americanfootball_nfl". right; left; reflexivity.
    + exists "cfb_weekend", "americanfootball_ncaaf". right; right; left; reflexivity.
Defined.

(** X13.  What a route answers when the cache gives nothing and the
    provider does not deliver: without an API key (unset or empty) it
    raises HTTP 500; with one, it requests the odds URL of its own
    sport (the NFL one for both NFL routes, the NCAAF one for
    [/cfb/weekend]) and raises HTTP 503 on status 429, HTTP 502 on any
    other status than 200, and passes on a transport failure or a body
    that is not JSON.  In each of these cases nothing is stored and the
    clock is not read again. *)
Theorem routes_upstream_errors {host : Host} key sk (h : route) (e : env)
    (w : world GamesResponse) :
  In (key, sk, h) routes ->
  fst (cache_get key w) = Ok None ->
  let failing x := h e w = (Raise x, snd (cache_get key w)) in
  (ODDS_API_KEY e = None \/ ODDS_API_KEY e = Some "" -> failing (HTTPException 500))
  /\ (forall k, ODDS_API_KEY e = Some k -> k <> "" ->
        (forall x, http_get e (odds_url sk) = Raise x -> failing x)
        /\ (forall r, http_get e (odds_url sk) = Ok r ->
              (status_code r = 429 -> failing (HTTPException 503))
              /\ (status_code r <> 429 -> status_code r <> 200 ->
                    failing (HTTPException 502))
              /\ (forall x, status_code r = 200 -> json r = Raise x -> failing x))).
Proof.
  intros Hin Hmiss failing. subst failing. cbv beta.
  destruct (route_shape _ _ _ Hin) as [g ->].
  destruct (cache_get key w) as [[[d|]|x] w1]; try discriminate. cbn [snd].
  rewrite serve_miss_eq. unfold fetch_odds. fold (odds_url sk).
  split.
  - intros [-> | ->]; reflexivity.
  - intros k -> Hk. destruct k as [| c k]; [congruence |]. split.
    + intros x ->. reflexivity.
    + intros r ->. cbn [bind]. repeat split.
      * intros ->. reflexivity.
      * intros H1 H2. destruct (Z.eqb_spec (status_code r) 429); [contradiction |].
        destruct (Z.eqb_spec (status_code r) 200); [contradiction |]. reflexivity.
      * intros x -> ->. reflexivity.
Qed.

Lemma routes_upstream_errors_witness :
  let failing x :=
    cfb_weekend (answering 429) (fresh_world GamesResponse)
    = (Raise x, snd (cache_get "cfb_weekend" (fresh_world GamesResponse))) in
  (ODDS_API_KEY (answering 429) = None \/ ODDS_API_KEY (answering 429) = Some "" ->
     failing (HTTPException 500))
  /\ (forall k, ODDS_API_KEY (answering 429) = Some k -> k <> "" ->
        (forall x, http_get (answering 429) (odds_url "americanfootball_ncaaf") = Raise x ->
           failing x)
        /\ (forall r, http_get (answering 429) (odds_url "americanfootball_ncaaf") = Ok r ->
              (status_code r = 429 -> failing (HTTPException 503))
              /\ (status_code r <> 429 -> status_code r <> 200 ->
                    failing (HTTPException 502))
              /\ (forall x, status_code r = 200 -> json r = Raise x -> failing x))).
Proof.
  apply (routes_upstream_errors "cfb_weekend" "americanfootball_ncaaf" cfb_weekend
           (answering 429) (fresh_world GamesResponse)).
  - right; right; left; reflexivity.
  - reflexivity.
Defined.

(** ** Bookmaker selection on arbitrary input *)

Section ChooseBookMore.
Context {host : Host}.

Lemma dict_by_Ok_keyed field items : forall acc d,
  dict_by field items acc = Ok d -> Forall (fun x => keyed field x = true) items.
Proof.
  induction items as [| x r IH]; intros acc d; simpl; [constructor |].
  destruct (py_get x field PNone) as [k|] eqn:Hg; cbn [bind]; [| discriminate].
  destruct (hashable k) eqn:Hh; [| discriminate]. intros H. constructor.
  - unfold keyed. now rewrite Hg.
  - exact (IH _ _ H).
Qed.

Lemma keyed_dict field x : keyed field x = true -> exists d, x = PDict d.
Proof. destruct x; try discriminate. eauto. Qed.

Lemma choose_book_Ok_keyed bs b :
  choose_book (PList bs) = Ok b -> Forall (fun x => keyed "title" x = true) bs.
Proof.
  destruct bs as [| b0 rest]; [constructor |].
  unfold choose_book. cbn [truthy negb py_iter bind].
  destruct (dict_by "title" (b0 :: rest) []) as [d|] eqn:Hd; [| discriminate].
  intros _. exact (dict_by_Ok_keyed _ _ _ _ Hd).
Qed.

End ChooseBookMore.

(** X14.  [choose_book] never invents a bookmaker.  Whenever it returns,
    either its argument was falsy and the result is [None], or the
    argument was a list, the result is one of its elements and every
    element is a dict with a hashable (or missing) title.  So on a
    non-empty string, a non-empty dict or a number other than zero it
    raises. *)
Theorem choose_book_returns_member {host : Host} (v b : pyval) :
  choose_book v = Ok b ->
  (truthy v = false /\ b = PNone)
  \/ (exists bs d, v = PList bs /\ In b bs /\ b = PDict d
                   /\ Forall (fun x => keyed "title" x = true) bs).
Proof.
  intros H. destruct (truthy v) eqn:Ht.
  - right. destruct v as [| p | n | f | s | bs | d].
    + discriminate.
    + revert H. unfold choose_book. rewrite Ht. discriminate.
    + revert H. unfold choose_book. rewrite Ht. discriminate.
    + revert H. unfold choose_book. rewrite Ht. discriminate.
    + destruct s as [| c s]; [discriminate |]. discriminate.
    + pose proof (choose_book_Ok_keyed _ _ H) as Hk.
      destruct bs as [| b0 rest]; [discriminate |].
      rewrite (choose_book_keyed _ _ Hk) in H.
      assert (Hin : In b (b0 :: rest)).
      { pose proof (scan_titles_In BOOK_PRIORITY (b0 :: rest)) as Hs.
        destruct (scan_titles BOOK_PRIORITY (b0 :: rest)) as [z|]; injection H as <-.
        - now apply Hs.
        - now left. }
      rewrite List.Forall_forall in Hk.
      destruct (keyed_dict _ _ (Hk _ Hin)) as [d Hd].
      exists (b0 :: rest), d. rewrite List.Forall_forall. auto.
    + destruct d as [| [k x] d]; [discriminate |]. discriminate.
  - left. revert H. unfold choose_book. rewrite Ht. cbn [negb].
    intros [= <-]. auto.
Qed.

Lemma choose_book_returns_member_witness :
  (truthy (PList fanduel_draftkings) = false /\ book "DraftKings" = PNone)
  \/ (exists bs d, PList fanduel_draftkings = PList bs /\ In (book "DraftKings") bs
                   /\ book "DraftKings" = PDict d
                   /\ Forall (fun x => keyed "title" x = true) bs).
Proof.
  apply (choose_book_returns_member (PList fanduel_draftkings) (book "DraftKings")).
  reflexivity.
Defined.

(** X15.  One malformed bookmaker spoils the selection wherever it
    stands: if the elements before it are well formed and it is not a
    dict ([AttributeError]) or its title is a list or a dict
    ([TypeError]), [choose_book] raises that exception, even when a
    bookmaker of the priority list stands before or after it. *)
Theorem choose_book_malformed {host : Host} (l1 l2 : list pyval) (x : pyval) :
  Forall (fun y => keyed "title" y = true) l1 -> keyed "title" x = false ->
  choose_book (PList (l1 ++ x :: l2))
  = Raise (match x with PDict _ => TypeError | _ => AttributeError end).
Proof.
  intros Hk Hx. unfold choose_book.
  assert (Ht : truthy (PList (l1 ++ x :: l2)) = true) by (now destruct l1).
  rewrite Ht. cbn [negb py_iter bind].
  now rewrite (dict_by_malformed "title" l1 x l2 [] Hk Hx).
Qed.

Lemma choose_book_malformed_witness :
  choose_book (PList ([book "DraftKings"] ++ PNone :: [book "FanDuel"]))
  = Raise AttributeError.
Proof.
  apply (choose_book_malformed [book "DraftKings"] [book "FanDuel"] PNone).
  - repeat constructor.
  - reflexivity.
Defined.

(** ** The markets of a returned game *)

Section NormaliserMore.
Context {host : Host}.

Lemma dict_get_by_field field items d name :
  dict_by field items [] = Ok d ->
  dict_get d (PStr name)
  = Ok (match find_last (field_is field name) items with
        | Some m => m
        | None => PNone
        end).
Proof.
  intros Hd. unfold dict_get. cbn [hashable].
  rewrite (dict_by_lookup _ _ _ _ name Hd). cbn [dict_lookup].
  now destruct (find_last _ _).
Qed.

(** [by_name.get(team) or by_name.get(label)] on the dict of the
    outcomes by name. *)
Lemma py_or_pick_named items d team label r :
  dict_by "name" items [] = Ok d ->
  (let* h := dict_get d (PStr team) in py_or h (dict_get d (PStr label))) = Ok r ->
  truthy r = true ->
  pick_named team label items = Some r.
Proof.
  intros Hd. rewrite !(dict_get_by_field _ _ _ _ Hd). cbn [bind]. unfold pick_named, py_or.
  destruct (find_last (field_is "name" team) items) as [m|] eqn:Em.
  - apply find_last_split in Em as (_ & _ & _ & Hm & _).
    destruct (field_is_truthy _ _ _ Hm) as [-> _]. now intros [= <-].
  - cbn [truthy]. destruct (find_last (field_is "name" label) items) as [m|].
    + now intros [= <-].
    + intros [= <-]. discriminate.
Qed.

Lemma map_moneyline_Some home away markets ml :
  map_moneyline (PStr home) (PStr away) markets = Ok (Some ml) ->
  exists outs items oh oa,
    market_outcomes markets "h2h" = Ok (Some outs)
    /\ py_iter outs = Ok items
    /\ pick_named home "Home" items = Some oh
    /\ pick_named away "Away" items = Some oa
    /\ price_of oh = Ok (Moneyline.home ml)
    /\ price_of oa = Ok (Moneyline.away ml).
Proof.
  unfold map_moneyline. intros H.
  apply bind_opt_Some in H as (outs & Ho & H).
  apply bind_Ok in H as (items & Hi & H).
  apply bind_Ok in H as (d & Hd & H).
  destruct (let* h := dict_get d (PStr home) in py_or h (dict_get d (PStr "Home")))
    as [oh|] eqn:Eh.
  2:{ apply bind_Ok in H as (h & Hh & H). rewrite Hh in Eh. cbn [bind] in Eh.
      apply bind_Ok in H as (x & Hx & _). congruence. }
  destruct (let* a := dict_get d (PStr away) in py_or a (dict_get d (PStr "Away")))
    as [oa|] eqn:Ea.
  2:{ apply bind_Ok in H as (h & Hh & H). apply bind_Ok in H as (x & Hx & H).
      apply bind_Ok in H as (a & Ha & H). rewrite Ha in Ea. cbn [bind] in Ea.
      apply bind_Ok in H as (y & Hy & _). congruence. }
  apply bind_Ok in H as (h & Hh & H). rewrite Hh in Eh. cbn [bind] in Eh.
  rewrite Eh in H. cbn [bind] in H.
  apply bind_Ok in H as (a & Ha & H). rewrite Ha in Ea. cbn [bind] in Ea.
  rewrite Ea in H. cbn [bind] in H.
  destruct (truthy oh) eqn:Toh; [| discriminate].
  destruct (truthy oa) eqn:Toa; [| discriminate]. cbn [negb orb] in H.
  apply bind_Ok in H as (hp & Hhp & H). apply bind_Ok in H as (hi & Hhi & H).
  apply bind_Ok in H as (ap & Hap & H). apply bind_Ok in H as (ai & Hai & H).
  injection H as <-. exists outs, items, oh, oa.
  split; [exact Ho |]. split; [exact Hi |].
  split; [apply (py_or_pick_named items d home "Home" oh Hd); [now rewrite Hh | exact Toh] |].
  split; [apply (py_or_pick_named items d away "Away" oa Hd); [now rewrite Ha | exact Toa] |].
  unfold price_of. rewrite Hhp, Hap. cbn [bind Moneyline.home Moneyline.away]. auto.
Qed.

Lemma first_outcome_first_with test default items : forall o,
  first_outcome test default items = Ok o -> truthy o = true ->
  first_with test default items o.
Proof.
  induction items as [| x r IH]; intros o; simpl.
  - intros [= <-]. discriminate.
  - destruct (py_get x "name" default) as [n|] eqn:Hn; cbn [bind]; [| discriminate].
    destruct (test n) eqn:Ht.
    + intros [= <-] _. exists [], r, n. auto.
    + intros Ho To. destruct (IH o Ho To) as (l1 & l2 & m & -> & Hl1 & Hm & Htm).
      exists (x :: l1), l2, m. repeat split; auto. constructor; eauto.
Qed.

Lemma map_total_Some markets t :
  map_total markets = Ok (Some t) ->
  exists outs items over under,
    market_outcomes markets "totals" = Ok (Some outs)
    /\ py_iter outs = Ok items
    /\ first_with (name_starts "over") (PStr "") items over
    /\ first_with (name_starts "under") (PStr "") items under
    /\ point_of over = Ok (Total.line t)
    /\ price_of over = Ok (Total.over_price t)
    /\ price_of under = Ok (Total.under_price t).
Proof.
  unfold map_total. intros H.
  apply bind_opt_Some in H as (outs & Ho & H).
  apply bind_Ok in H as (items & Hi & H).
  apply bind_Ok in H as (over & Hov & H).
  apply bind_Ok in H as (under & Hun & H).
  destruct (truthy over) eqn:Tov; [| discriminate].
  destruct (truthy under) eqn:Tun; [| discriminate]. cbn [negb orb] in H.
  apply bind_Ok in H as (pt & Hpt & H). apply bind_Ok in H as (line & Hline & H).
  apply bind_Ok in H as (op & Hop & H). apply bind_Ok in H as (opr & Hopr & H).
  apply bind_Ok in H as (up & Hup & H). apply bind_Ok in H as (upr & Hupr & H).
  injection H as <-. exists outs, items, over, under.
  split; [exact Ho |]. split; [exact Hi |].
  split; [now apply first_outcome_first_with |].
  split; [now apply first_outcome_first_with |].
  unfold point_of, price_of. rewrite Hpt, Hop, Hup. cbn [bind]. auto.
Qed.

Lemma float_abs_not_negative x : float_lt (float_abs x) (S754_zero false) = false.
Proof. destruct x as [s|s| |s m e]; reflexivity. Qed.

Lemma map_spread_Some home away markets s :
  map_spread (PStr home) (PStr away) markets = Ok (Some s) ->
  (Spread.favorite s = home \/ Spread.favorite s = away)
  /\ float_lt (Spread.line s) (S754_zero false) = false.
Proof.
  unfold map_spread. intros H.
  apply bind_opt_Some in H as (outs & Ho & H).
  apply bind_Ok in H as (items & Hi & H).
  apply bind_Ok in H as (oh & Hoh & H).
  apply bind_Ok in H as (oa & Hoa & H).
  destruct (negb (truthy oh) || negb (truthy oa)); [discriminate |].
  apply bind_Ok in H as (hpt & _ & H). apply bind_Ok in H as (hp & _ & H).
  apply bind_Ok in H as (apt & _ & H). apply bind_Ok in H as (ap & _ & H).
  destruct (float_lt hp ap).
  - apply bind_Ok in H as (p & _ & H). apply bind_Ok in H as (pr & _ & H).
    cbn [validate_str bind] in H. injection H as <-. cbn.
    split; [now left | apply float_abs_not_negative].
  - apply bind_Ok in H as (p & _ & H). apply bind_Ok in H as (pr & _ & H).
    cbn [validate_str bind] in H. injection H as <-. cbn.
    split; [now right | apply float_abs_not_negative].
Qed.

End NormaliserMore.

(** X16.  The moneyline of a returned game.  Among the outcomes of the
    bookmaker's h2h market, the home price is the price of the last
    outcome named as the home team or, only if there is none, of the
    last outcome named "Home"; likewise the away price with the away
    team and "Away".  (The spread looks for the first outcome named
    either way instead.) *)
Theorem moneyline_last_named {host : Host} (ev book : pyval) (g : Game.t) :
  map_event_to_game ev book = Ok (Some g) ->
  exists markets outs items oh oa,
    book_markets book = Ok markets
    /\ market_outcomes markets "h2h" = Ok (Some outs)
    /\ py_iter outs = Ok items
    /\ pick_named (Game.home g) "Home" items = Some oh
    /\ pick_named (Game.away g) "Away" items = Some oa
    /\ price_of oh = Ok (Moneyline.home (Game.moneyline g))
    /\ price_of oa = Ok (Moneyline.away (Game.moneyline g)).
Proof.
  intros H.
  destruct (map_event_to_game_Some _ _ _ H)
    as (home & away & markets & _ & _ & Hm & Hml & _ & _ & _ & _ & -> & ->).
  destruct (map_moneyline_Some _ _ _ _ Hml) as (outs & items & oh & oa & Hrest).
  exists markets, outs, items, oh, oa. split; [exact Hm | exact Hrest].
Qed.

Lemma moneyline_last_named_witness :
  exists markets outs items oh oa,
    book_markets relisting_book = Ok markets
    /\ market_outcomes markets "h2h" = Ok (Some outs)
    /\ py_iter outs = Ok items
    /\ pick_named (Game.home relisted_game) "Home" items = Some oh
    /\ pick_named (Game.away relisted_game) "Away" items = Some oa
    /\ price_of oh = Ok (Moneyline.home (Game.moneyline relisted_game))
    /\ price_of oa = Ok (Moneyline.away (Game.moneyline relisted_game)).
Proof.
  apply (moneyline_last_named (event_with fri_evening_iso [relisting_book]) relisting_book).
  vm_compute. reflexivity.
Defined.

(** X17.  The total of a returned game.  Among the outcomes of the
    bookmaker's totals market, [over] is the first whose name, lower
    cased, starts with "over" and [under] the first whose name starts
    with "under" (a missing name counts as the empty string); the line
    is the point of [over] (the point of [under] is not read), and the
    two prices are those of [over] and [under]. *)
Theorem total_first_over_under {host : Host} (ev book : pyval) (g : Game.t) :
  map_event_to_game ev book = Ok (Some g) ->
  exists markets outs items over under,
    book_markets book = Ok markets
    /\ market_outcomes markets "totals" = Ok (Some outs)
    /\ py_iter outs = Ok items
    /\ first_with (name_starts "over") (PStr "") items over
    /\ first_with (name_starts "under") (PStr "") items under
    /\ point_of over = Ok (Total.line (Game.total g))
    /\ price_of over = Ok (Total.over_price (Game.total g))
    /\ price_of under = Ok (Total.under_price (Game.total g)).
Proof.
  intros H.
  destruct (map_event_to_game_Some _ _ _ H)
    as (home & away & markets & _ & _ & Hm & _ & _ & Ht & _).
  destruct (map_total_Some _ _ Ht) as (outs & items & over & under & Hrest).
  exists markets, outs, items, over, under. split; [exact Hm | exact Hrest].
Qed.

Lemma total_first_over_under_witness :
  exists markets outs items over under,
    book_markets good_book = Ok markets
    /\ market_outcomes markets "totals" = Ok (Some outs)
    /\ py_iter outs = Ok items
    /\ first_with (name_starts "over") (PStr "") items over
    /\ first_with (name_starts "under") (PStr "") items under
    /\ point_of over = Ok (Total.line (Game.total good_game))
    /\ price_of over = Ok (Total.over_price (Game.total good_game))
    /\ price_of under = Ok (Total.under_price (Game.total good_game)).
Proof.
  apply (total_first_over_under good_event good_book). vm_compute. reflexivity.
Defined.

(** X18.  In every returned game the favorite of the spread is one of
    the two teams of the game, and the line is never below zero (it is
    an absolute value; it is NaN when the quoted point is). *)
Theorem spread_favorite_is_a_team {host : Host} (ev book : pyval) (g : Game.t) :
  map_event_to_game ev book = Ok (Some g) ->
  (Spread.favorite (Game.spread g) = Game.home g
   \/ Spread.favorite (Game.spread g) = Game.away g)
  /\ float_lt (Spread.line (Game.spread g)) (S754_zero false) = false.
Proof.
  intros H.
  destruct (map_event_to_game_Some _ _ _ H)
    as (home & away & markets & _ & _ & _ & _ & Hs & _ & _ & _ & -> & ->).
  exact (map_spread_Some _ _ _ _ Hs).
Qed.

Lemma spread_favorite_is_a_team_witness :
  (Spread.favorite (Game.spread good_game) = Game.home good_game
   \/ Spread.favorite (Game.spread good_game) = Game.away good_game)
  /\ float_lt (Spread.line (Game.spread good_game)) (S754_zero false) = false.
Proof.
  apply (spread_favorite_is_a_team good_event good_book). vm_compute. reflexivity.
Defined.

(** ** The games of a response *)

Section GamesFacts.
Context {host : Host}.

Lemma kept_In body evs g :
  In g (kept body evs) -> exists ev, In ev evs /\ body ev = Ok (Some g).
Proof.
  unfold kept. intros H. apply in_flat_map in H as (ev & Hev & Hg).
  exists ev. split; [exact Hev |].
  destruct (body ev) as [[g'|]|]; simpl in Hg; try contradiction.
  destruct Hg as [-> | []]. reflexivity.
Qed.

Lemma book_and_map_Some ev g : book_and_map ev = Ok (Some g) -> game_of ev g.
Proof.
  unfold book_and_map. intros H.
  apply bind_Ok in H as (bms & Hb & H). apply bind_Ok in H as (book & Hc & H).
  destruct (negb (truthy book)); [discriminate |].
  exists bms, book. auto.
Qed.

(** The key of a returned game is the event's own commence_time string,
    whatever default the loop read it with. *)
Lemma game_of_commence ev g default :
  game_of ev g ->
  py_get ev "commence_time" default = Ok (PStr (Game.kickoff_iso g)).
Proof.
  intros (bms & book & _ & _ & H).
  destruct (map_event_to_game_Some _ _ _ H) as (_ & _ & _ & _ & _ & _ & _ & _ & _ & _ & Hk & _).
  destruct ev; simpl in *; try discriminate.
  destruct (assoc "commence_time" d); [exact Hk | discriminate].
Qed.

Lemma within_window_true s start end_ :
  within_window (PStr s) start end_ = Ok true ->
  exists dt, fromisoformat (replace_Z s) = Some dt
             /\ dt_le start dt = Ok true /\ dt_le dt end_ = Ok true.
Proof.
  unfold within_window. destruct (fromisoformat (replace_Z s)) as [dt|]; [| discriminate].
  destruct (dt_le start dt) as [[|]|] eqn:E; cbn [bind]; try discriminate.
  intros H. exists dt. auto.
Qed.

Lemma dt_le_true_aware a b o :
  tzoffset a = Some o -> dt_le a b = Ok true ->
  (exists ob, tzoffset b = Some ob) /\ instant a <= instant b.
Proof.
  unfold dt_le. intros ->. destruct (tzoffset b) as [ob|]; [| discriminate].
  intros [= H]. split; [eauto | lia].
Qed.

Lemma weekend_body_Some start end_ ev g :
  weekend_body start end_ ev = Ok (Some g) ->
  game_of ev g /\ within_window (PStr (Game.kickoff_iso g)) start end_ = Ok true.
Proof.
  unfold weekend_body. intros H.
  apply bind_Ok in H as (ct & Hct & H). apply bind_Ok in H as (inside & Hin & H).
  destruct inside; cbn [negb] in H; [| discriminate].
  pose proof (book_and_map_Some _ _ H) as Hg. split; [exact Hg |].
  rewrite (game_of_commence ev g (PStr "") Hg) in Hct. now injection Hct as <-.
Qed.

Lemma today_body_Some today ev g :
  today_body today ev = Ok (Some g) ->
  game_of ev g /\ is_today (PStr (Game.kickoff_iso g)) today = Ok true.
Proof.
  unfold today_body. intros H.
  apply bind_Ok in H as (ct & Hct & H). apply bind_Ok in H as (same & Hs & H).
  destruct same; cbn [negb] in H; [| discriminate].
  pose proof (book_and_map_Some _ _ H) as Hg. split; [exact Hg |].
  rewrite (game_of_commence ev g (PStr "") Hg) in Hct. now injection Hct as <-.
Qed.

Lemma commence_keys_events evs : forall ks,
  commence_keys evs = Ok ks -> map snd ks = evs.
Proof.
  induction evs as [| ev r IH]; intros ks; simpl.
  - now intros [= <-].
  - destruct (py_get ev "commence_time" (PStr "")) as [k|]; cbn [bind]; [| discriminate].
    destruct k; try discriminate. intros H.
    apply bind_Ok in H as (ks' & Hk & [= <-]). simpl. now rewrite (IH _ Hk).
Qed.

Lemma sorted_by_commence_In evs ordered ev :
  sorted_by_commence evs = Ok ordered -> In ev ordered -> In ev evs.
Proof.
  unfold sorted_by_commence. intros H.
  apply bind_Ok in H as (ks & Hk & [= <-]).
  rewrite <- (commence_keys_events _ _ Hk).
  apply Permutation_in, Permutation_map, Permutation_sym, sort_by_key_perm.
Qed.

Lemma collect_skip body l1 x l2 : forall acc,
  body x = Ok None ->
  collect body (l1 ++ x :: l2) acc = collect body (l1 ++ l2) acc.
Proof.
  induction l1 as [| y r IH]; intros acc Hx; simpl.
  - now rewrite Hx.
  - destruct (body y) as [m|]; cbn [bind]; [| reflexivity]. now apply IH.
Qed.

End GamesFacts.

(** X19.  Every game of a weekend response is the normalisation of one
    of the raw events with the bookmaker chosen among that event's own,
    and its kick-off string parses to an aware instant inside the closed
    window of [now]: no game is made up and none lies outside the
    window. *)
Theorem weekend_games_in_window {host : Host} (now start end_ : datetime)
    (evs : list pyval) (gs : list Game.t) :
  football_week_window now = Ok (start, end_) ->
  weekend_games now (PList evs) = Ok gs ->
  forall g, In g gs ->
    (exists ev, In ev evs /\ game_of ev g)
    /\ kickoff_at (fun dt => (exists o, tzoffset dt = Some o)
                             /\ instant start <= instant dt <= instant end_) g.
Proof.
  intros Hw Hg g Hin. unfold weekend_games in Hg. rewrite Hw in Hg.
  cbn [bind py_iter fst snd] in Hg. apply collect_Ok in Hg. subst gs. simpl in Hin.
  apply kept_In in Hin as (ev & Hev & Hb).
  apply weekend_body_Some in Hb as [Hgo Hww]. split; [eauto |].
  destruct (within_window_true _ _ _ Hww) as (dt & Hp & H1 & H2).
  destruct (football_week_window_aware _ _ _ Hw) as [Hs _].
  destruct (dt_le_true_aware _ _ _ Hs H1) as [[o Ho] Hle1].
  destruct (dt_le_true_aware _ _ _ Ho H2) as [_ Hle2].
  exists dt. split; [exact Hp |]. split; [eauto | lia].
Qed.

Lemma weekend_games_in_window_witness :
  (exists ev, In ev [good_event] /\ game_of ev good_game)
  /\ kickoff_at (fun dt => (exists o, tzoffset dt = Some o)
                           /\ instant thu_start <= instant dt <= instant tue_end)
       good_game.
Proof.
  apply (weekend_games_in_window wed_noon thu_start tue_end [good_event] [good_game]).
  - vm_compute. reflexivity.
  - vm_compute. reflexivity.
  - left. reflexivity.
Defined.

(** X20.  Every game of [/nfl/today] is the normalisation of one of the
    raw events with the bookmaker chosen among that event's own.  Either
    all of them kick off on [today] (the date of the kick-off string as
    written, with its own offset), or the date loop found no game at
    all and the response holds at most two games, those of the
    fallback. *)
Theorem today_games_dated_or_fallback {host : Host} (today : Z)
    (evs : list pyval) (gs : list Game.t) :
  today_games today (PList evs) = Ok gs ->
  (forall g, In g gs -> exists ev, In ev evs /\ game_of ev g)
  /\ ((forall g, In g gs -> kickoff_at (fun dt => date dt = today) g)
      \/ (collect (today_body today) evs [] = Ok [] /\ (length gs <= 2)%nat)).
Proof.
  unfold today_games. cbn [py_iter bind]. intros H.
  apply bind_Ok in H as (found & Hf & H).
  assert (Hfound : forall g, In g found ->
            (exists ev, In ev evs /\ game_of ev g)
            /\ kickoff_at (fun dt => date dt = today) g).
  { intros g Hin. apply collect_Ok in Hf. subst found. simpl in Hin.
    apply kept_In in Hin as (ev & Hev & Hb).
    apply today_body_Some in Hb as [Hgo Ht]. split; [eauto |].
    unfold is_today in Ht. unfold kickoff_at.
    destruct (fromisoformat (replace_Z (Game.kickoff_iso g))) as [dt|]; [| discriminate].
    injection Ht as Ht. exists dt. split; [reflexivity | lia]. }
  destruct found as [| g0 rest].
  - apply bind_Ok in H as (ordered & Ho & H). apply collect_Ok in H. subst gs.
    split.
    + intros g Hin. simpl in Hin. apply kept_In in Hin as (ev & Hev & Hb).
      exists ev. split; [| now apply book_and_map_Some].
      apply (sorted_by_commence_In evs ordered ev Ho).
      rewrite <- (firstn_skipn 2 ordered). apply in_or_app. now left.
    + right. split; [exact Hf |]. simpl.
      pose proof (kept_length book_and_map (firstn 2 ordered)) as Hl.
      rewrite length_firstn in Hl. lia.
  - injection H as <-. split.
    + intros g Hin. now apply Hfound.
    + left. intros g Hin. now apply Hfound.
Qed.

Lemma today_games_dated_or_fallback_witness :
  (forall g, In g [game_at fri_evening_iso; game_at sat_iso] ->
     exists ev, In ev three_events /\ game_of ev g)
  /\ ((forall g, In g [game_at fri_evening_iso; game_at sat_iso] ->
         kickoff_at (fun dt => date dt = 738888) g)
      \/ (collect (today_body 738888) three_events [] = Ok []
          /\ (length [game_at fri_evening_iso; game_at sat_iso] <= 2)%nat)).
Proof.
  apply (today_games_dated_or_fallback 738888 three_events
           [game_at fri_evening_iso; game_at sat_iso]).
  vm_compute. reflexivity.
Defined.

(** X21.  The weekend loop ignores an event that has no commence_time
    (the default "" is not a timestamp): wherever it stands among the
    raw events, the result is the same as without it, games and
    exceptions alike.  An event whose commence_time is null is not
    ignored: it ends the request with [AttributeError] as soon as the
    loop reaches it. *)
Theorem weekend_ignores_missing_commence_time {host : Host} (now : datetime)
    (l1 l2 : list pyval) (d d' : list (string * pyval)) :
  fromisoformat "" = None ->
  assoc "commence_time" d = None ->
  assoc "commence_time" d' = Some PNone ->
  weekend_games now (PList (l1 ++ PDict d :: l2)) = weekend_games now (PList (l1 ++ l2))
  /\ (forall start end_, football_week_window now = Ok (start, end_) ->
        (forall ev, In ev l1 -> exists r, weekend_body start end_ ev = Ok r) ->
        weekend_games now (PList (l1 ++ PDict d' :: l2)) = Raise AttributeError).
Proof.
  intros Hempty Hd Hd'. split.
  - unfold weekend_games.
    destruct (football_week_window now) as [[start end_]|]; [| reflexivity].
    cbn [bind py_iter fst snd]. apply collect_skip.
    unfold weekend_body. cbn [py_get]. rewrite Hd. cbn [bind within_window replace_Z].
    now rewrite Hempty.
  - intros start end_ Hw Hok. unfold weekend_games. rewrite Hw.
    cbn [bind py_iter fst snd]. apply collect_first_raise; [exact Hok |].
    unfold weekend_body. cbn [py_get]. now rewrite Hd'.
Qed.

Lemma weekend_ignores_missing_commence_time_witness :
  weekend_games wed_noon (PList ([good_event] ++ PDict [("home_team", PStr "A")] :: []))
  = weekend_games wed_noon (PList ([good_event] ++ []))
  /\ (forall start end_, football_week_window wed_noon = Ok (start, end_) ->
        (forall ev, In ev [good_event] -> exists r, weekend_body start end_ ev = Ok r) ->
        weekend_games wed_noon
          (PList ([good_event] ++ PDict [("commence_time", PNone)] :: []))
        = Raise AttributeError).
Proof.
  apply (weekend_ignores_missing_commence_time wed_noon [good_event] []
           [("home_team", PStr "A")] [("commence_time", PNone)]); reflexivity.
Defined.
